(** * Invoice dashboard: server actions, validation and login

    A shallow embedding of the server-side code of the dashboard:

    - [/app/lib/actions.ts]: [FormSchema], [createInvoice], [updateInvoice],
      [deleteInvoice], [authenticate];
    - [/auth.ts]: [getUser], [authorize];
    - [/dashboard/invoices/[id]/edit/page.tsx]: the edit [Page];
    - [/app/ui/invoices/errors.tsx]: [ErrorMessages].

    JavaScript numbers are IEEE 754 binary64 values; they are modelled by
    [spec_float] with [prec = 53] and [emax = 1024].  JavaScript strings are
    sequences of UTF-16 code units; a [string] here is a sequence of code
    units in the range 0..255. *)

From Stdlib Require Import ZArith Lia Bool List Ascii String.
From Stdlib Require Import Floats.SpecFloat.
Import ListNotations.

Local Open Scope string_scope.
Local Open Scope Z_scope.

(** ** JavaScript numbers *)

Module JsNumber.

Definition prec : Z := 53.
Definition emax : Z := 1024.

Definition number := spec_float.

Definition NaN : number := S754_nan.
Definition pos_zero : number := S754_zero false.

(** The number nearest to the integer [z] (ties to even). *)
Definition of_Z (z : Z) : number := binary_normalize prec emax z 0 false.

(** The number nearest to [m / d] for positive [m] and [d], with sign
    [s]: the exact quotient is rounded once. *)
Definition of_ratio (s : bool) (m d : positive) : number :=
  SFdiv prec emax (S754_finite s m 0) (S754_finite false d 0).

(** The number nearest to [(-1)^s * m * 10^e]. *)
Definition of_decimal (s : bool) (m : N) (e : Z) : number :=
  match m with
  | N0 => S754_zero s
  | Npos p =>
      match e with
      | Zneg k => of_ratio s p (Pos.pow 10 k)
      | _ => binary_normalize prec emax (cond_Zopp s (Zpos p * 10 ^ e)) 0 s
      end
  end.

Definition isNaN (x : number) : bool :=
  match x with S754_nan => true | _ => false end.

(** [x * y], [x <= y], [x < y] of the language. *)
Definition mul (x y : number) : number := SFmul prec emax x y.
Definition leb (x y : number) : bool := SFleb x y.
Definition ltb (x y : number) : bool := SFltb x y.

(** The integer a number is equal to, if it is one. *)
Definition integer_value (x : number) : option Z :=
  match x with
  | S754_zero _ => Some 0
  | S754_finite s m e =>
      match e with
      | Zneg k =>
          if Z.eqb (Z.land (Zpos m) (Z.ones (Zpos k))) 0
          then Some (cond_Zopp s (Z.shiftr (Zpos m) (Zpos k)))
          else None
      | _ => Some (cond_Zopp s (Zpos m * 2 ^ e))
      end
  | _ => None
  end.

(** [Number.isInteger]. *)
Definition isInteger (x : number) : bool :=
  match integer_value x with Some _ => true | None => false end.

(** The exponent of a finite number is at least [emin]; every number
    produced by a rounding operation satisfies this. *)
Definition well_formed (x : number) : bool :=
  match x with
  | S754_finite _ _ e => Z.leb (emin prec emax) e
  | _ => true
  end.

End JsNumber.

Import JsNumber.

(** ** [Number(value)] on strings: the StringToNumber conversion

    [z.coerce.number()] applies [Number] to the raw form value.  On a string
    the language trims white space and line terminators, reads a
    StrNumericLiteral and rounds its mathematical value; the empty string is
    [+0] and everything else is [NaN]. *)

Module StringToNumber.

(** White space and line terminators below code unit 256:
    TAB, LF, VT, FF, CR, SP and NBSP. *)
Definition isStrWhiteSpaceChar (c : ascii) : bool :=
  let n := N_of_ascii c in
  existsb (N.eqb n) [9; 10; 11; 12; 13; 32; 160]%N.

Fixpoint trimStart (l : list ascii) : list ascii :=
  match l with
  | c :: l' => if isStrWhiteSpaceChar c then trimStart l' else l
  | [] => []
  end.

Definition trim (l : list ascii) : list ascii :=
  rev (trimStart (rev (trimStart l))).

(** The value of a digit in the given radix. *)
Definition digit_value (radix : N) (c : ascii) : option N :=
  let n := N_of_ascii c in
  let v :=
    if (48 <=? n)%N && (n <=? 57)%N then Some (n - 48)%N
    else if (97 <=? n)%N && (n <=? 102)%N then Some (n - 87)%N
    else if (65 <=? n)%N && (n <=? 70)%N then Some (n - 55)%N
    else None in
  match v with
  | Some d => if (d <? radix)%N then Some d else None
  | None => None
  end.

(** The longest prefix of digits, most significant first, and the rest. *)
Fixpoint span_digits (radix : N) (l : list ascii) : list N * list ascii :=
  match l with
  | c :: l' =>
      match digit_value radix c with
      | Some d => let (ds, r) := span_digits radix l' in (d :: ds, r)
      | None => ([], l)
      end
  | [] => ([], [])
  end.

Definition digits_value (radix : N) (ds : list N) : N :=
  fold_left (fun acc d => (acc * radix + d)%N) ds 0%N.

(** ExponentPart: [e] or [E], an optional sign, at least one digit, and
    nothing after it. *)
Definition exponent_part (l : list ascii) : option Z :=
  match l with
  | [] => Some 0
  | c :: l1 =>
      if (Ascii.eqb c "e" || Ascii.eqb c "E")%bool then
        let '(neg, l2) :=
          match l1 with
          | "-"%char :: l2 => (true, l2)
          | "+"%char :: l2 => (false, l2)
          | _ => (false, l1)
          end in
        match span_digits 10 l2 with
        | ((_ :: _) as ds, []) =>
            let v := Z.of_N (digits_value 10 ds) in
            Some (if neg then - v else v)
        | _ => None
        end
      else None
  end.

(** StrUnsignedDecimalLiteral with sign [s] already read. *)
Definition unsigned_decimal (s : bool) (l : list ascii) : number :=
  if list_eq_dec ascii_dec l (list_ascii_of_string "Infinity")
  then S754_infinity s
  else
    let (ip, r1) := span_digits 10 l in
    let (fp, r2) :=
      match r1 with
      | "."%char :: r => span_digits 10 r
      | _ => ([], r1)
      end in
    match (ip ++ fp)%list with
    | [] => NaN
    | ds =>
        match exponent_part r2 with
        | Some e =>
            of_decimal s (digits_value 10 ds) (e - Z.of_nat (List.length fp))
        | None => NaN
        end
    end.

(** NonDecimalIntegerLiteral: the digits after [0x], [0o] or [0b]. *)
Definition non_decimal (radix : N) (l : list ascii) : number :=
  match span_digits radix l with
  | ((_ :: _) as ds, []) => of_Z (Z.of_N (digits_value radix ds))
  | _ => NaN
  end.

(** The radix a literal announces after its leading [0]. *)
Definition radix_of_prefix (c : ascii) : option N :=
  if (Ascii.eqb c "x" || Ascii.eqb c "X")%bool then Some 16%N
  else if (Ascii.eqb c "o" || Ascii.eqb c "O")%bool then Some 8%N
  else if (Ascii.eqb c "b" || Ascii.eqb c "B")%bool then Some 2%N
  else None.

(** StrDecimalLiteral: an optional sign and an unsigned literal. *)
Definition decimal (l : list ascii) : number :=
  match l with
  | c :: l' =>
      if Ascii.eqb c "-" then unsigned_decimal true l'
      else if Ascii.eqb c "+" then unsigned_decimal false l'
      else unsigned_decimal false l
  | [] => unsigned_decimal false l
  end.

(** StrNumericLiteral: a non-decimal integer literal carries no sign. *)
Definition numeric_literal (l : list ascii) : number :=
  match l with
  | c0 :: c1 :: l' =>
      match (if Ascii.eqb c0 "0" then radix_of_prefix c1 else None) with
      | Some radix => non_decimal radix l'
      | None => decimal l
      end
  | _ => decimal l
  end.

Definition StringToNumber (str : string) : number :=
  match trim (list_ascii_of_string str) with
  | [] => pos_zero
  | l => numeric_literal l
  end.

End StringToNumber.

Import StringToNumber.

(** ** Form data *)

(** A form entry is a string or an uploaded file. *)
Inductive FormDataEntryValue :=
| EntryString (s : string)
| EntryFile.

(** [FormData] keeps its entries in order; a name may occur more than once. *)
Definition FormData := list (string * FormDataEntryValue).

(** [formData.get(name)]: the first entry of that name, or [null]. *)
Fixpoint FormData_get (name : string) (formData : FormData)
  : option FormDataEntryValue :=
  match formData with
  | [] => None
  | (k, v) :: rest =>
      if String.eqb k name then Some v else FormData_get name rest
  end.

(** [Number(value)] on what [formData.get] returns: [null] is [+0], a
    string goes through [StringToNumber], an object that is not a number
    is [NaN]. *)
Definition Number (v : option FormDataEntryValue) : number :=
  match v with
  | None => pos_zero
  | Some (EntryString s) => StringToNumber s
  | Some EntryFile => NaN
  end.

(** ** The validation layer: [FormSchema] *)

(** [keyof Errors]. *)
Inductive field := customerId | amount | status.

Definition field_name (f : field) : string :=
  match f with
  | customerId => "customerId"
  | amount => "amount"
  | status => "status"
  end.

(** [type Errors]: each key is optional. *)
Record Errors := mkErrors {
  errors_customerId : option (list string);
  errors_amount : option (list string);
  errors_status : option (list string)
}.

Definition no_errors : Errors := mkErrors None None None.

(** [errors[id]]. *)
Definition Errors_get (errors : Errors) (id : field) : option (list string) :=
  match id with
  | customerId => errors_customerId errors
  | amount => errors_amount errors
  | status => errors_status errors
  end.

(** [type State]. [state_errors = None] is an absent [errors] key;
    [state_message = None] is an absent or [null] message. *)
Record State := mkState {
  state_errors : option Errors;
  state_message : option string
}.

Inductive InvoiceStatus := pending | paid.

Definition status_name (s : InvoiceStatus) : string :=
  match s with
  | pending => "pending"
  | paid => "paid"
  end.

Module Zod.

(** An issue: the key it was raised under and its message. *)
Record issue := mkIssue { issue_path : field; issue_message : string }.

Inductive SafeParseResult (A : Type) :=
| ParseSuccess (data : A)
| ParseError (issues : list issue).
Arguments ParseSuccess {A} data.
Arguments ParseError {A} issues.

Definition success {A} (r : SafeParseResult A) : bool :=
  match r with ParseSuccess _ => true | ParseError _ => false end.

(** [customerId: z.string({ invalid_type_error })]: every string passes,
    anything else is an invalid type. *)
Definition parse_customerId (v : option FormDataEntryValue)
  : string + list issue :=
  match v with
  | Some (EntryString s) => inl s
  | _ => inr [mkIssue customerId "Please select a customer."]
  end.

(** [amount: z.coerce.number().gt(0, { message })]: the value is coerced
    with [Number]; [NaN] is an invalid type (with the library's message),
    and the check fails when [data <= 0]. *)
Definition parse_amount (v : option FormDataEntryValue)
  : number + list issue :=
  let data := Number v in
  if isNaN data
  then inr [mkIssue amount "Expected number, received nan"]
  else if leb data pos_zero
  then inr [mkIssue amount "Please enter an amount greater than $0."]
  else inl data.

(** [status: z.enum(['pending', 'paid'], { invalid_type_error })]: a value
    that is not a string is an invalid type; a string outside the list
    is an invalid enum value (with the library's message). *)
Definition parse_status (v : option FormDataEntryValue)
  : InvoiceStatus + list issue :=
  match v with
  | Some (EntryString s) =>
      if String.eqb s "pending" then inl pending
      else if String.eqb s "paid" then inl paid
      else inr [mkIssue status
                  ("Invalid enum value. Expected 'pending' | 'paid', received '"
                     ++ s ++ "'")]
  | _ => inr [mkIssue status "Please select an invoice status."]
  end.

Definition issues_of {A} (r : A + list issue) : list issue :=
  match r with inl _ => [] | inr l => l end.

(** [error.flatten().fieldErrors]: the messages of the issues of each
    key, in order; a key without issue is absent. *)
Definition messages_of (f : field) (issues : list issue) : list string :=
  map issue_message
    (filter (fun i => match issue_path i, f with
                      | customerId, customerId
                      | amount, amount
                      | status, status => true
                      | _, _ => false
                      end) issues).

Definition field_errors (f : field) (issues : list issue)
  : option (list string) :=
  match messages_of f issues with
  | [] => None
  | l => Some l
  end.

Definition fieldErrors (issues : list issue) : Errors :=
  mkErrors (field_errors customerId issues)
           (field_errors amount issues)
           (field_errors status issues).

End Zod.

Import Zod.

(** What [CreateInvoice] and [UpdateInvoice] produce: [FormSchema] without
    [id] and [date]. *)
Record InvoiceData := mkInvoiceData {
  data_customerId : string;
  data_amount : number;
  data_status : InvoiceStatus
}.

(** The raw object handed to [safeParse]. *)
Record RawInvoice := mkRawInvoice {
  raw_customerId : option FormDataEntryValue;
  raw_amount : option FormDataEntryValue;
  raw_status : option FormDataEntryValue
}.

(** [FormSchema.omit({ id: true, date: true }).safeParse(raw)]: the keys
    are parsed in the order of the schema and every issue is kept. *)
Definition FormSchema_safeParse (raw : RawInvoice)
  : SafeParseResult InvoiceData :=
  match parse_customerId (raw_customerId raw),
        parse_amount (raw_amount raw),
        parse_status (raw_status raw) with
  | inl c, inl a, inl s => ParseSuccess (mkInvoiceData c a s)
  | rc, ra, rs => ParseError (issues_of rc ++ issues_of ra ++ issues_of rs)%list
  end.

Definition CreateInvoice_safeParse := FormSchema_safeParse.
Definition UpdateInvoice_safeParse := FormSchema_safeParse.

(** The object built from the form in [createInvoice] and [updateInvoice]. *)
Definition raw_of_form (formData : FormData) : RawInvoice :=
  mkRawInvoice (FormData_get "customerId" formData)
               (FormData_get "amount" formData)
               (FormData_get "status" formData).

(** ** The world of a server action: database, cache, navigation *)

(** A row of [invoices]. *)
Record Invoice := mkInvoice {
  invoice_id : string;
  invoice_customer_id : string;
  invoice_amount : number;
  invoice_status : string;
  invoice_date : string
}.

(** A row of [users]. *)
Record User := mkUser {
  user_email : string;
  user_password : string
}.

(** The statements the code sends, with their bound parameters. *)
Inductive statement :=
| INSERT_invoice (customer_id : string) (amount : number)
                 (status : string) (date : string)
| UPDATE_invoice (customer_id : string) (amount : number)
                 (status : string) (id : string)
| DELETE_invoice (id : string)
| SELECT_invoice (id : string)
| SELECT_customers
| SELECT_user (email : string).

(** The database: its tables, the identifier the next inserted row gets,
    and [db_rejects], which says of each statement whether the database
    raises an error on it (connectivity loss, constraint violation, a
    parameter of the wrong type). *)
Record Database := mkDatabase {
  db_invoices : list Invoice;
  db_customers : list string;
  db_users : list User;
  db_next_id : string;
  db_rejects : statement -> bool
}.

(** What the hooks and the collaborators were asked to do, oldest first. *)
Inductive event :=
| Sql (q : statement)
| RevalidatePath (path : string)
| Redirect (path : string)
| ConsoleError
| ConsoleLog (msg : string)
| SessionCreated (email : string).

Record World := mkWorld {
  database : Database;
  today : string;
  trace : list event
}.

(** What can be thrown. [redirect] and [notFound] of the framework work by
    throwing; [AuthError] carries its [type]. *)
Inductive exn :=
| DatabaseError
| NEXT_REDIRECT (path : string)
| NEXT_NOT_FOUND
| AuthError (type : string)
| Error (msg : string).

Inductive outcome (A : Type) :=
| Returned (a : A)
| Thrown (e : exn).
Arguments Returned {A} a.
Arguments Thrown {A} e.

(** An asynchronous function: it runs in a world and returns or throws. *)
Definition Async (A : Type) : Type := World -> outcome A * World.

Definition ret {A} (a : A) : Async A := fun w => (Returned a, w).

Definition throw {A} (e : exn) : Async A := fun w => (Thrown e, w).

Definition bind {A B} (m : Async A) (k : A -> Async B) : Async B :=
  fun w =>
    match m w with
    | (Returned a, w') => k a w'
    | (Thrown e, w') => (Thrown e, w')
    end.

(** [try { body } catch (error) { handler }]. *)
Definition try_catch {A} (body : Async A) (handler : exn -> Async A)
  : Async A :=
  fun w =>
    match body w with
    | (Returned a, w') => (Returned a, w')
    | (Thrown e, w') => handler e w'
    end.

Declare Scope async_scope.
Delimit Scope async_scope with async.
Notation "x <- m ;; k" := (bind m (fun x => k))
  (at level 61, m at next level, right associativity) : async_scope.
Notation "m ;; k" := (bind m (fun _ => k))
  (at level 61, right associativity) : async_scope.
Local Open Scope async_scope.

Definition emit (ev : event) : Async unit :=
  fun w => (Returned tt, mkWorld (database w) (today w) (trace w ++ [ev])).

Definition get_database : Async Database :=
  fun w => (Returned (database w), w).

Definition set_database (db : Database) : Async unit :=
  fun w => (Returned tt, mkWorld db (today w) (trace w)).

(** [new Date().toISOString().split('T')[0]]. *)
Definition current_date : Async string :=
  fun w => (Returned (today w), w).

(** *** The database collaborator *)

Definition with_invoices (db : Database) (rows : list Invoice) : Database :=
  mkDatabase rows (db_customers db) (db_users db) (db_next_id db)
             (db_rejects db).

(** The table after a statement the database accepts.  [INSERT] adds one
    row, [UPDATE] rewrites the rows with that [id], [DELETE] removes the
    rows with that [id]; a statement that matches no row changes nothing
    and is not an error. *)
Definition apply_statement (q : statement) (rows : list Invoice)
                           (next_id : string) : list Invoice :=
  match q with
  | INSERT_invoice c a s d => rows ++ [mkInvoice next_id c a s d]
  | UPDATE_invoice c a s id =>
      map (fun r => if String.eqb (invoice_id r) id
                    then mkInvoice (invoice_id r) c a s (invoice_date r)
                    else r) rows
  | DELETE_invoice id =>
      filter (fun r => negb (String.eqb (invoice_id r) id)) rows
  | _ => rows
  end.

(** [await sql`...`]: the statement is sent; the database either raises an
    error and changes nothing, or executes it. *)
Definition sql (q : statement) : Async unit :=
  emit (Sql q) ;;
  db <- get_database ;;
  if db_rejects db q then throw DatabaseError
  else set_database
         (with_invoices db (apply_statement q (db_invoices db) (db_next_id db))).

(** [revalidatePath(path)] and [redirect(path)] of the framework;
    [redirect] never returns. *)
Definition revalidatePath (path : string) : Async unit :=
  emit (RevalidatePath path).

Definition redirect {A} (path : string) : Async A :=
  emit (Redirect path) ;; throw (NEXT_REDIRECT path).

Definition console_error : Async unit := emit ConsoleError.
Definition console_log (msg : string) : Async unit := emit (ConsoleLog msg).

(** ** The server actions of [/app/lib/actions.ts] *)

Definition hundred : number := of_Z 100.

Definition createInvoice (prevState : State) (formData : FormData)
  : Async State :=
  match CreateInvoice_safeParse (raw_of_form formData) with
  | ParseError issues =>
      ret (mkState (Some (fieldErrors issues))
                   (Some "Missing Fields. Failed to Create Invoice."))
  | ParseSuccess data =>
      let customerId := data_customerId data in
      let amount := data_amount data in
      let status := data_status data in
      let amountInCents := mul amount hundred in
      date <- current_date ;;
      failed <- try_catch
        (sql (INSERT_invoice customerId amountInCents
                             (status_name status) date) ;;
         ret None)
        (fun error =>
           ret (Some (mkState None
                  (Some "Database Error: Failed to Create Invoice.")))) ;;
      match failed with
      | Some state => ret state
      | None =>
          revalidatePath "/dashboard/invoices" ;;
          redirect "/dashboard/invoices"
      end
  end.

Definition updateInvoice (id : string) (prevState : State)
                         (formData : FormData) : Async State :=
  match UpdateInvoice_safeParse (raw_of_form formData) with
  | ParseError issues =>
      ret (mkState (Some (fieldErrors issues))
                   (Some "Missing Fields. Failed to Update Invoice."))
  | ParseSuccess data =>
      let customerId := data_customerId data in
      let amount := data_amount data in
      let status := data_status data in
      let amountInCents := mul amount hundred in
      failed <- try_catch
        (sql (UPDATE_invoice customerId amountInCents
                             (status_name status) id) ;;
         ret None)
        (fun error =>
           ret (Some (mkState None
                  (Some "Database Error: Failed to Update Invoice.")))) ;;
      match failed with
      | Some state => ret state
      | None =>
          revalidatePath "/dashboard/invoices" ;;
          redirect "/dashboard/invoices"
      end
  end.

Definition deleteInvoice (id : string) : Async State :=
  try_catch
    (sql (DELETE_invoice id) ;;
     revalidatePath "/dashboard/invoices" ;;
     ret (mkState None (Some "Deleted Invoice.")))
    (fun error =>
       console_error ;;
       ret (mkState None (Some "Database Error: Failed to Delete Invoice."))).

(** ** Login: [/auth.ts] and [authenticate] *)

(** The [credentials] object: a key that is absent or not a string is
    [None]. *)
Record Credentials := mkCredentials {
  cred_email : option string;
  cred_password : option string
}.

(** [SELECT * FROM users WHERE email=${email}]: the matching rows. *)
Definition sql_users (email : string) : Async (list User) :=
  emit (Sql (SELECT_user email)) ;;
  db <- get_database ;;
  if db_rejects db (SELECT_user email) then throw DatabaseError
  else ret (filter (fun u => String.eqb (user_email u) email) (db_users db)).

(** [getUser]: [rows[0]], which is [undefined] when there is no row. *)
Definition getUser (email : string) : Async (option User) :=
  try_catch
    (rows <- sql_users email ;; ret (hd_error rows))
    (fun error => console_error ;; throw (Error "Failed to fetch user.")).

Section Authorize.

(** The pattern of [z.string().email()] and [bcrypt.compare] belong to
    the libraries. *)
Variable isEmail : string -> bool.
Variable bcrypt_compare : string -> string -> bool.

(** [z.object({ email: z.string().email(), password: z.string().min(6) })
    .safeParse(credentials)]. *)
Definition parse_credentials (credentials : Credentials)
  : option (string * string) :=
  match cred_email credentials, cred_password credentials with
  | Some email, Some password =>
      if isEmail email && (6 <=? String.length password)%nat
      then Some (email, password)
      else None
  | _, _ => None
  end.

Definition authorize (credentials : Credentials) : Async (option User) :=
  let invalid := console_log "Invalid credentials" ;; ret None in
  match parse_credentials credentials with
  | Some (email, password) =>
      user <- getUser email ;;
      match user with
      | None => ret None
      | Some u =>
          if bcrypt_compare password (user_password u)
          then ret (Some u)
          else invalid
      end
  | None => invalid
  end.

(** The authentication collaborator, as the login path uses it:
    [signIn('credentials', ...)] runs [authorize]; a [null] result is
    thrown as an [AuthError] of type [CredentialsSignin], and a user
    gets a session.  This is the library's contract, not code of the
    repository. *)
Definition signIn_credentials (credentials : Credentials) : Async unit :=
  user <- authorize credentials ;;
  match user with
  | None => throw (AuthError "CredentialsSignin")
  | Some u => emit (SessionCreated (user_email u))
  end.

End Authorize.

(** [authenticate]: [signIn] is the collaborator; the result is
    [undefined] ([None]) or a message. *)
Definition authenticate (signIn : string -> FormData -> Async unit)
                        (prevState : option string) (formData : FormData)
  : Async (option string) :=
  try_catch
    (signIn "credentials" formData ;; ret None)
    (fun error =>
       match error with
       | AuthError type =>
           if String.eqb type "CredentialsSignin"
           then ret (Some "Invalid credentials.")
           else ret (Some "Something went wrong.")
       | _ => throw error
       end).

(** The credentials a login form carries. *)
Definition credentials_of_form (formData : FormData) : Credentials :=
  let str v := match v with Some (EntryString s) => Some s | _ => None end in
  mkCredentials (str (FormData_get "email" formData))
                (str (FormData_get "password" formData)).

(** ** The edit page: [/dashboard/invoices/[id]/edit/page.tsx] *)

(** Modelled from the spec: [fetchInvoiceById] of [/app/lib/data] is not
    part of the sources at hand.  It looks the identifier up in
    [invoices] and gives the row, or [undefined] when no row matches. *)
Definition fetchInvoiceById (id : string) : Async (option Invoice) :=
  emit (Sql (SELECT_invoice id)) ;;
  db <- get_database ;;
  if db_rejects db (SELECT_invoice id) then throw DatabaseError
  else ret (find (fun r => String.eqb (invoice_id r) id) (db_invoices db)).

(** Modelled from the spec: [fetchCustomers] of [/app/lib/data] is not
    part of the sources at hand.  It lists the customers. *)
Definition fetchCustomers : Async (list string) :=
  emit (Sql SELECT_customers) ;;
  db <- get_database ;;
  if db_rejects db SELECT_customers then throw DatabaseError
  else ret (db_customers db).

(** [notFound()] of the framework never returns. *)
Definition notFound {A} : Async A := throw NEXT_NOT_FOUND.

(** What a request for the route shows. *)
Inductive view :=
| EditInvoicePage (invoice : Invoice) (customers : list string)
| NotFoundView
| ErrorBoundary
| Navigation (path : string).

(** [await Promise.all([a, b])]: both calls are made before the result is
    awaited, so both run, the second also when the first fails; the result
    is the pair of the two values, or the first rejection. *)
Definition Promise_all {A B} (a : Async A) (b : Async B) : Async (A * B) :=
  fun w =>
    let (ra, w1) := a w in
    let (rb, w2) := b w1 in
    match ra, rb with
    | Returned x, Returned y => (Returned (x, y), w2)
    | Thrown e, _ => (Thrown e, w2)
    | Returned _, Thrown e => (Thrown e, w2)
    end.

(** Modelled from the spec: the body of the page after the [notFound]
    test is elided in the source ([// ...]).  It renders the page
    normally: the edit view of the invoice, with the customers to choose
    from. *)
Definition edit_view (invoice : Invoice) (customers : list string) : view :=
  EditInvoicePage invoice customers.

Definition Page (id : string) : Async view :=
  fetched <- Promise_all (fetchInvoiceById id) fetchCustomers ;;
  let (invoice, customers) := fetched in
  match invoice with
  | None => notFound
  | Some inv => ret (edit_view inv customers)
  end.

(** The route segment: [not-found.tsx] takes what [notFound] throws, a
    redirect navigates, and [error.tsx] is the catch-all. *)
Definition render_route (page : Async view) (w : World) : view :=
  match fst (page w) with
  | Returned v => v
  | Thrown NEXT_NOT_FOUND => NotFoundView
  | Thrown (NEXT_REDIRECT path) => Navigation path
  | Thrown _ => ErrorBoundary
  end.

(** ** [ErrorMessages]: [/app/ui/invoices/errors.tsx] *)

(** The paragraphs and the container the component returns. *)
Record paragraph := mkP {
  p_className : string;
  p_key : string;
  p_text : string
}.

Record container := mkDiv {
  div_id : string;
  div_children : list paragraph
}.

Definition ErrorMessages (errors : option Errors) (id : field) : container :=
  let errMsg : list string :=
    match errors with
    | None => []
    | Some e => match Errors_get e id with Some l => l | None => [] end
    end in
  mkDiv (field_name id ++ "-error")
        (map (fun error => mkP "mt-2 text-sm text-red-500" error error) errMsg).

(** ** Route protection: [/auth.config.ts] *)

(** The session the library hands to the callback: [auth] is [null]
    without a session, and [auth.user] may be absent. *)
Record Session := mkSession { session_user : option User }.

(** [nextUrl]: the origin and the path of the request. *)
Record URL := mkURL { url_origin : string; url_pathname : string }.

(** [new URL(path, base)] for an absolute [path]: the origin of [base]
    with that path. *)
Definition new_URL (path : string) (base : URL) : URL :=
  mkURL (url_origin base) path.

(** What the callback returns: a boolean, or a redirect response. *)
Inductive authorized_result :=
| Allowed (b : bool)
| Response_redirect (location : URL).

(** [!!auth?.user]. *)
Definition isLoggedIn (auth : option Session) : bool :=
  match auth with
  | Some session =>
      match session_user session with Some _ => true | None => false end
  | None => false
  end.

(** [callbacks.authorized({ auth, request: { nextUrl } })]. *)
Definition authorized (auth : option Session) (nextUrl : URL)
  : authorized_result :=
  let isOnDashboard := String.prefix "/dashboard" (url_pathname nextUrl) in
  if isOnDashboard then
    if isLoggedIn auth then Allowed true else Allowed false
  else if isLoggedIn auth then
    Response_redirect (new_URL "/dashboard" nextUrl)
  else Allowed true.

(** ** The login form: [app/ui/login-form.tsx] *)

(** What the [aria-live] region of the form holds. *)
Inductive alert_child :=
| ExclamationCircleIcon
| AlertText (text : string).

(** [{errorMessage && (<>...</>)}]: [undefined] and the empty string are
    falsy and show nothing. *)
Definition LoginForm_alert (errorMessage : option string)
  : list alert_child :=
  match errorMessage with
  | None => []
  | Some msg =>
      if String.eqb msg "" then []
      else [ExclamationCircleIcon; AlertText msg]
  end.

(** ** Blank strings *)

(** A string made of white space and line terminators only. *)
Definition blank (s : string) : bool :=
  forallb isStrWhiteSpaceChar (list_ascii_of_string s).

(** ** Whole amounts *)

(** The integer a string spells when it is made of decimal digits only. *)
Definition whole_amount (s : string) : option N :=
  match span_digits 10 (list_ascii_of_string s) with
  | ((_ :: _) as ds, []) => Some (digits_value 10 ds)
  | _ => None
  end.

(** ** Observing a run *)

(** The events a run adds to the trace. *)
Definition emitted {A} (m : Async A) (w : World) : list event :=
  skipn (List.length (trace w)) (trace (snd (m w))).

Definition is_hook (ev : event) : bool :=
  match ev with
  | RevalidatePath _ | Redirect _ => true
  | _ => false
  end.

(** The cache-invalidation and navigation hooks of a trace, in order. *)
Definition hooks_of (l : list event) : list event := filter is_hook l.

Definition is_sql (ev : event) : bool :=
  match ev with Sql _ => true | _ => false end.

(** The statements of a trace, in order. *)
Definition statements_of (l : list event) : list event := filter is_sql l.

(** The amount bound into an [INSERT] or [UPDATE] of [invoices]. *)
Definition bound_amount (ev : event) : option number :=
  match ev with
  | Sql (INSERT_invoice _ a _ _) | Sql (UPDATE_invoice _ a _ _) => Some a
  | _ => None
  end.

(** The row of [invoices] an identifier matches, if any. *)
Definition matching_row (db : Database) (id : string) : option Invoice :=
  find (fun r => String.eqb (invoice_id r) id) (db_invoices db).

(** The row of [users] an email matches, if any. *)
Definition matching_user (db : Database) (email : string) : option User :=
  find (fun u => String.eqb (user_email u) email) (db_users db).

(** The statement [createInvoice] sends for validated data. *)
Definition insert_of (data : InvoiceData) (w : World) : statement :=
  INSERT_invoice (data_customerId data) (mul (data_amount data) hundred)
                 (status_name (data_status data)) (today w).

(** The statement [updateInvoice] sends for validated data. *)
Definition update_of (id : string) (data : InvoiceData) : statement :=
  UPDATE_invoice (data_customerId data) (mul (data_amount data) hundred)
                 (status_name (data_status data)) id.

(** The world after the database executed [q] and the events [evs] were
    recorded. *)
Definition after (w : World) (q : statement) (evs : list event) : World :=
  mkWorld (with_invoices (database w)
             (apply_statement q (db_invoices (database w))
                              (db_next_id (database w))))
          (today w) (trace w ++ evs).

(** The world after the events [evs] were recorded, the database
    untouched. *)
Definition logged (w : World) (evs : list event) : World :=
  mkWorld (database w) (today w) (trace w ++ evs).

Definition invoices_path : string := "/dashboard/invoices".

(** A structured result that reports a failure: field errors with a
    message, or a database error message. *)
Definition validation_failure (issues : list issue) (msg : string) : State :=
  mkState (Some (fieldErrors issues)) (Some msg).

Definition persistence_failure (msg : string) : State :=
  mkState None (Some msg).

(** ** Sample inputs *)

(** A database that accepts every statement: no invoice, one customer,
    one user. *)
Definition sample_database : Database :=
  mkDatabase [] ["abc"] [mkUser "user@nextmail.com" "$2b$10$hash"]
             "00000000-0000-0000-0000-000000000001" (fun _ => false).

Definition sample_world : World :=
  mkWorld sample_database "2024-11-03" [].

(** The same database when it is unreachable. *)
Definition offline_world : World :=
  mkWorld (mkDatabase [] ["abc"] [] "00000000-0000-0000-0000-000000000001"
                      (fun _ => true))
          "2024-11-03" [].

(** An invoice form for customer [abc], status [pending]. *)
Definition sample_form (amount : string) : FormData :=
  [("customerId", EntryString "abc"); ("amount", EntryString amount);
   ("status", EntryString "pending")].

Definition initialState : State := mkState (Some no_errors) None.

(** A world whose [invoices] table holds one row. *)
Definition sample_invoice : Invoice :=
  mkInvoice "00000000-0000-0000-0000-000000000007" "abc" (of_Z 1050)
            "pending" "2024-11-01".

Definition world_with_invoice : World :=
  mkWorld (with_invoices sample_database [sample_invoice]) "2024-11-03" [].

(** A world whose [users] table is empty. *)
Definition world_without_users : World :=
  mkWorld (mkDatabase [] ["abc"] [] "00000000-0000-0000-0000-000000000001"
                      (fun _ => false))
          "2024-11-03" [].

(** A world whose database answers every statement but the customers
    query. *)
Definition world_customers_down : World :=
  mkWorld (mkDatabase [sample_invoice] ["abc"] []
             "00000000-0000-0000-0000-000000000001"
             (fun q => match q with SELECT_customers => true | _ => false end))
          "2024-11-03" [].

(** A well-formed identifier that no row carries. *)
Definition missing_id : string := "00000000-0000-0000-0000-000000000000".

(** * Rounding: sign and exponent of a rounded result *)

Section Rounding.

Variables prec emax : Z.
Hypothesis prec_pos : 0 < prec.

Local Abbreviation emin := (SpecFloat.emin prec emax).
Local Abbreviation fexp := (SpecFloat.fexp prec emax).

Lemma shr_m_of_loc (m : Z) (l : location) :
  shr_m (shr_record_of_loc m l) = m.
Proof. destruct l as [|[]]; reflexivity. Qed.

Lemma Zdigits2_nonneg (m : Z) : 0 <= Zdigits2 m.
Proof. destruct m; simpl; lia. Qed.

Lemma Zdigits2_positive (m : Z) : 0 < m -> 0 < Zdigits2 m.
Proof. destruct m; simpl; lia. Qed.

Lemma positive_of_Zdigits2 (m : Z) : 0 <= m -> 0 < Zdigits2 m -> 0 < m.
Proof. destruct m; simpl; lia. Qed.

(** One shift to the right drops one binary digit. *)
Lemma shr_1_digits (mrs : shr_record) :
  0 <= shr_m mrs ->
  0 <= shr_m (shr_1 mrs) /\
  Zdigits2 (shr_m (shr_1 mrs)) = Z.max 0 (Zdigits2 (shr_m mrs) - 1).
Proof.
  destruct mrs as [m r s]; simpl; intros Hm.
  destruct m as [|p|p]; [simpl; lia | | lia].
  destruct p; cbn [shr_m Zdigits2 digits2_pos]; rewrite ?Pos2Z.inj_succ; lia.
Qed.

Lemma iter_shr_1_digits (p : positive) :
  forall mrs : shr_record,
    0 <= shr_m mrs ->
    0 <= shr_m (iter_pos shr_1 p mrs) /\
    Zdigits2 (shr_m (iter_pos shr_1 p mrs))
    = Z.max 0 (Zdigits2 (shr_m mrs) - Zpos p).
Proof.
  induction p as [p IH|p IH|]; intros mrs Hm; simpl iter_pos.
  - destruct (shr_1_digits mrs Hm) as [H1 E1].
    destruct (IH _ H1) as [H2 E2].
    destruct (IH _ H2) as [H3 E3].
    split; [exact H3|]. rewrite E3, E2, E1. lia.
  - destruct (IH _ Hm) as [H2 E2].
    destruct (IH _ H2) as [H3 E3].
    split; [exact H3|]. rewrite E3, E2. lia.
  - exact (shr_1_digits mrs Hm).
Qed.

(** After [shr_fexp] the exponent is at least [emin]. *)
Lemma shr_fexp_exponent (m e : Z) (l : location) :
  emin <= snd (shr_fexp prec emax m e l).
Proof.
  unfold shr_fexp, shr.
  assert (Hmax : emin <= fexp (Zdigits2 m + e)) by apply Z.le_max_r.
  destruct (fexp (Zdigits2 m + e) - e) eqn:E; simpl; lia.
Qed.

(** A positive mantissa whose value is not below [2^emin] stays positive. *)
Lemma shr_fexp_mantissa (m e : Z) (l : location) :
  0 < m -> emin < Zdigits2 m + e ->
  0 < shr_m (fst (shr_fexp prec emax m e l)).
Proof.
  intros Hm Hmag. unfold shr_fexp, shr.
  assert (Hf : fexp (Zdigits2 m + e) - e < Zdigits2 m).
  { unfold SpecFloat.fexp. lia. }
  destruct (fexp (Zdigits2 m + e) - e) as [|n|n] eqn:E;
    simpl; rewrite ?shr_m_of_loc; try exact Hm.
  destruct (iter_shr_1_digits n (shr_record_of_loc m l)) as [H0 Hd].
  { rewrite shr_m_of_loc. lia. }
  rewrite shr_m_of_loc in Hd.
  apply positive_of_Zdigits2; [exact H0|]. rewrite Hd. lia.
Qed.

Lemma round_nearest_even_positive (m : Z) (l : location) :
  0 < m -> 0 < round_nearest_even m l.
Proof.
  intros Hm. destruct l as [|[]]; simpl; try lia.
  destruct (Z.even m); lia.
Qed.

(** Every finite result of a rounding has its exponent at least [emin]. *)
Lemma binary_round_aux_exponent (s : bool) (m e : Z) (l : location) :
  match binary_round_aux prec emax s m e l with
  | S754_finite _ _ e' => emin <= e'
  | _ => True
  end.
Proof.
  unfold binary_round_aux.
  destruct (shr_fexp prec emax m e l) as [mrs' e'].
  pose proof (shr_fexp_exponent
                (round_nearest_even (shr_m mrs') (loc_of_shr_record mrs'))
                e' loc_Exact) as H.
  destruct (shr_fexp prec emax _ e' loc_Exact) as [mrs'' e''].
  simpl in H.
  destruct (shr_m mrs''); try exact I.
  destruct (e'' <=? emax - prec); [exact H | exact I].
Qed.

(** A positive mantissa at or above [2^emin] rounds to a finite number or
    to an infinity of the same sign, never to zero. *)
Lemma binary_round_aux_sign (s : bool) (m e : Z) (l : location) :
  0 < m -> emin < Zdigits2 m + e ->
  match binary_round_aux prec emax s m e l with
  | S754_finite s' _ _ | S754_infinity s' => s' = s
  | _ => False
  end.
Proof.
  intros Hm Hmag. unfold binary_round_aux.
  pose proof (shr_fexp_mantissa m e l Hm Hmag) as H1.
  pose proof (shr_fexp_exponent m e l) as E1.
  destruct (shr_fexp prec emax m e l) as [mrs' e']. simpl in H1, E1.
  set (m2 := round_nearest_even (shr_m mrs') (loc_of_shr_record mrs')).
  assert (H2 : 0 < m2) by (apply round_nearest_even_positive; exact H1).
  pose proof (shr_fexp_mantissa m2 e' loc_Exact H2) as H3.
  pose proof (Zdigits2_positive m2 H2) as Hd2.
  destruct (shr_fexp prec emax m2 e' loc_Exact) as [mrs'' e''].
  simpl in H3. specialize (H3 ltac:(lia)).
  destruct (shr_m mrs''); try lia.
  destruct (e'' <=? emax - prec); reflexivity.
Qed.

End Rounding.

(** * Numbers: what validation lets through, and its product with 100 *)

Lemma digits2_pos_le (p : positive) :
  forall q : positive, (p <= q)%positive ->
                       (digits2_pos p <= digits2_pos q)%positive.
Proof.
  induction p as [p IH|p IH|]; intros q Hpq; destruct q as [q|q|];
    cbn [digits2_pos]; try lia.
  all: specialize (IH q ltac:(lia)); lia.
Qed.

Lemma hundred_eq : hundred = S754_finite false 7036874417766400 (-46).
Proof. reflexivity. Qed.

Lemma well_formed_round_aux (s : bool) (m e : Z) (l : location) :
  well_formed (binary_round_aux prec emax s m e l) = true.
Proof.
  pose proof (binary_round_aux_exponent prec emax s m e l) as H.
  destruct (binary_round_aux prec emax s m e l); try reflexivity.
  apply Z.leb_le. exact H.
Qed.

Lemma well_formed_normalize (z e : Z) (s : bool) :
  well_formed (binary_normalize prec emax z e s) = true.
Proof.
  destruct z; [reflexivity| |]; unfold binary_normalize, binary_round;
    destruct (shl_align _ _ _); apply well_formed_round_aux.
Qed.

Lemma well_formed_of_decimal (s : bool) (m : N) (e : Z) :
  well_formed (of_decimal s m e) = true.
Proof.
  destruct m as [|p]; [reflexivity|]. unfold of_decimal.
  destruct e; try apply well_formed_normalize.
  unfold of_ratio, SFdiv.
  destruct (SFdiv_core_binary _ _ _ _ _ _) as [[mz ez] lz].
  apply well_formed_round_aux.
Qed.

Lemma well_formed_unsigned_decimal (s : bool) (l : list ascii) :
  well_formed (unsigned_decimal s l) = true.
Proof.
  unfold unsigned_decimal.
  destruct (list_eq_dec _ _ _); [reflexivity|].
  destruct (span_digits 10 l) as [ip r1].
  destruct (match r1 with "."%char :: r => _ | _ => _ end) as [fp r2].
  destruct (ip ++ fp)%list; [reflexivity|].
  destruct (exponent_part r2); [apply well_formed_of_decimal | reflexivity].
Qed.

Lemma well_formed_numeric_literal (l : list ascii) :
  well_formed (numeric_literal l) = true.
Proof.
  assert (Hd : forall l', well_formed (decimal l') = true).
  { intros [|c l']; cbn [decimal]; [apply well_formed_unsigned_decimal|].
    destruct (Ascii.eqb c "-"); [apply well_formed_unsigned_decimal|].
    destruct (Ascii.eqb c "+"); apply well_formed_unsigned_decimal. }
  destruct l as [|c0 [|c1 l']]; cbn [numeric_literal]; try apply Hd.
  destruct (if Ascii.eqb c0 "0" then radix_of_prefix c1 else None);
    [|apply Hd].
  unfold non_decimal. destruct (span_digits n l') as [[|d ds] [|c r]];
    try reflexivity.
  apply well_formed_normalize.
Qed.

(** Every number read from a string has its exponent in range. *)
Lemma well_formed_StringToNumber (str : string) :
  well_formed (StringToNumber str) = true.
Proof.
  unfold StringToNumber.
  destruct (trim (list_ascii_of_string str)) eqn:E; [reflexivity|].
  apply well_formed_numeric_literal.
Qed.

Lemma well_formed_Number (v : option FormDataEntryValue) :
  well_formed (Number v) = true.
Proof.
  destruct v as [[s|]|]; try reflexivity. apply well_formed_StringToNumber.
Qed.

(** A number that is neither [NaN] nor [<= 0] has a product with 100 that
    is greater than zero. *)
Lemma mul_hundred_positive (x : number) :
  well_formed x = true -> isNaN x = false -> leb x pos_zero = false ->
  ltb pos_zero (mul x hundred) = true.
Proof.
  rewrite hundred_eq.
  destruct x as [s|[|]| |[|] m e]; try discriminate; try reflexivity.
  intros Hwf _ _. apply Z.leb_le in Hwf.
  unfold mul, SFmul. cbn [xorb].
  assert (Hmag : emin prec emax
                 < Zdigits2 (Zpos (m * 7036874417766400)) + (e + -46)).
  { pose proof (digits2_pos_le 7036874417766400 (m * 7036874417766400)
                  ltac:(nia)) as Hd.
    change (digits2_pos 7036874417766400) with 53%positive in Hd.
    cbn [Zdigits2]. unfold emin, prec, emax in *. lia. }
  pose proof (binary_round_aux_sign prec emax ltac:(reflexivity) false
                (Zpos (m * 7036874417766400)) (e + -46) loc_Exact
                ltac:(lia) Hmag) as H.
  destruct (binary_round_aux _ _ _ _ _ _) as [s'|s'| |s' m' e'];
    try contradiction; rewrite H; reflexivity.
Qed.

(** [Number] on a few strings. *)
Example StringToNumber_samples :
  StringToNumber "" = pos_zero /\
  StringToNumber "  " = pos_zero /\
  StringToNumber " 10.50 " = StringToNumber "10.5" /\
  StringToNumber "1e3" = of_Z 1000 /\
  StringToNumber "0x10" = of_Z 16 /\
  StringToNumber "-0x10" = NaN /\
  StringToNumber "abc" = NaN /\
  StringToNumber "1,5" = NaN /\
  StringToNumber "-Infinity" = S754_infinity true /\
  StringToNumber "1e-400" = pos_zero /\
  StringToNumber "1e400" = S754_infinity false.
Proof. repeat split; reflexivity. Qed.

(** [10.5 * 100] is 1050 and [0.001 * 100] is the number [0.1]. *)
Example amounts_in_cents :
  mul (StringToNumber "10.50") hundred = of_Z 1050 /\
  mul (StringToNumber "0.001") hundred = StringToNumber "0.1" /\
  integer_value (mul (StringToNumber "2") hundred) = Some 200.
Proof. repeat split; reflexivity. Qed.

(** * Runs of the server actions *)

Lemma emitted_of_trace {A} (m : Async A) (w : World) (evs : list event) :
  trace (snd (m w)) = (trace w ++ evs)%list -> emitted m w = evs.
Proof.
  intros H. unfold emitted. rewrite H.
  rewrite skipn_app, skipn_all, Nat.sub_diag. reflexivity.
Qed.

(** [createInvoice], case by case. *)
Lemma createInvoice_run (prevState : State) (formData : FormData) (w : World) :
  createInvoice prevState formData w =
  match CreateInvoice_safeParse (raw_of_form formData) with
  | ParseError issues =>
      (Returned (validation_failure issues
                   "Missing Fields. Failed to Create Invoice."), w)
  | ParseSuccess data =>
      let q := insert_of data w in
      if db_rejects (database w) q
      then (Returned (persistence_failure
                        "Database Error: Failed to Create Invoice."),
            logged w [Sql q])
      else (Thrown (NEXT_REDIRECT invoices_path),
            after w q [Sql q; RevalidatePath invoices_path;
                       Redirect invoices_path])
  end.
Proof.
  unfold createInvoice.
  destruct (CreateInvoice_safeParse (raw_of_form formData)) as [data|issues];
    [|reflexivity].
  destruct w as [db d tr].
  cbv beta iota delta [bind try_catch current_date sql emit get_database
    set_database throw ret revalidatePath redirect insert_of after logged
    database today trace fst snd].
  destruct (db_rejects db _); cbn; rewrite <- ?app_assoc; reflexivity.
Qed.

(** [updateInvoice], case by case. *)
Lemma updateInvoice_run (id : string) (prevState : State)
                        (formData : FormData) (w : World) :
  updateInvoice id prevState formData w =
  match UpdateInvoice_safeParse (raw_of_form formData) with
  | ParseError issues =>
      (Returned (validation_failure issues
                   "Missing Fields. Failed to Update Invoice."), w)
  | ParseSuccess data =>
      let q := update_of id data in
      if db_rejects (database w) q
      then (Returned (persistence_failure
                        "Database Error: Failed to Update Invoice."),
            logged w [Sql q])
      else (Thrown (NEXT_REDIRECT invoices_path),
            after w q [Sql q; RevalidatePath invoices_path;
                       Redirect invoices_path])
  end.
Proof.
  unfold updateInvoice.
  destruct (UpdateInvoice_safeParse (raw_of_form formData)) as [data|issues];
    [|reflexivity].
  destruct w as [db d tr].
  cbv beta iota delta [bind try_catch current_date sql emit get_database
    set_database throw ret revalidatePath redirect update_of after logged
    database today trace fst snd].
  destruct (db_rejects db _); cbn; rewrite <- ?app_assoc; reflexivity.
Qed.

(** [deleteInvoice], case by case. *)
Lemma deleteInvoice_run (id : string) (w : World) :
  deleteInvoice id w =
  if db_rejects (database w) (DELETE_invoice id)
  then (Returned (persistence_failure
                    "Database Error: Failed to Delete Invoice."),
        logged w [Sql (DELETE_invoice id); ConsoleError])
  else (Returned (mkState None (Some "Deleted Invoice.")),
        after w (DELETE_invoice id)
              [Sql (DELETE_invoice id); RevalidatePath invoices_path]).
Proof.
  destruct w as [db d tr].
  cbv beta iota delta [deleteInvoice bind try_catch sql emit get_database
    set_database throw ret revalidatePath console_error after logged
    database today trace fst snd].
  destruct (db_rejects db _); cbn; rewrite <- ?app_assoc; reflexivity.
Qed.

(** * Validation *)

Lemma messages_of_app (f : field) (l1 l2 : list issue) :
  messages_of f (l1 ++ l2) = (messages_of f l1 ++ messages_of f l2)%list.
Proof. unfold messages_of. rewrite filter_app, map_app. reflexivity. Qed.

(** The issues of a key are filed under that key only. *)
Lemma messages_of_customerId (f : field) (v : option FormDataEntryValue) :
  messages_of f (issues_of (parse_customerId v)) =
  match f with
  | customerId => map issue_message (issues_of (parse_customerId v))
  | _ => []
  end.
Proof. destruct v as [[s|]|], f; reflexivity. Qed.

Lemma messages_of_amount (f : field) (v : option FormDataEntryValue) :
  messages_of f (issues_of (parse_amount v)) =
  match f with
  | amount => map issue_message (issues_of (parse_amount v))
  | _ => []
  end.
Proof.
  unfold parse_amount.
  destruct (isNaN (Number v)); [destruct f; reflexivity|].
  destruct (leb (Number v) pos_zero); destruct f; reflexivity.
Qed.

Lemma messages_of_status (f : field) (v : option FormDataEntryValue) :
  messages_of f (issues_of (parse_status v)) =
  match f with
  | status => map issue_message (issues_of (parse_status v))
  | _ => []
  end.
Proof.
  destruct v as [[s|]|]; try (destruct f; reflexivity).
  unfold parse_status.
  destruct (String.eqb s "pending"); [destruct f; reflexivity|].
  destruct (String.eqb s "paid"); destruct f; reflexivity.
Qed.

(** The messages of a key after [safeParse] failed are the messages of
    that key's own parser. *)
Lemma messages_of_safeParse (raw : RawInvoice) (issues : list issue)
                            (f : field) :
  FormSchema_safeParse raw = ParseError issues ->
  messages_of f issues =
  match f with
  | customerId =>
      map issue_message (issues_of (parse_customerId (raw_customerId raw)))
  | amount => map issue_message (issues_of (parse_amount (raw_amount raw)))
  | status => map issue_message (issues_of (parse_status (raw_status raw)))
  end.
Proof.
  unfold FormSchema_safeParse. intros H.
  assert (E : issues = (issues_of (parse_customerId (raw_customerId raw))
                        ++ issues_of (parse_amount (raw_amount raw))
                        ++ issues_of (parse_status (raw_status raw)))%list).
  { destruct (parse_customerId _), (parse_amount _), (parse_status _);
      congruence. }
  rewrite E, !messages_of_app, messages_of_customerId, messages_of_amount,
    messages_of_status.
  destruct f; cbn [app]; rewrite ?app_nil_r; reflexivity.
Qed.

(** Validated data carries the coerced amount, which is a number greater
    than zero. *)
Lemma safeParse_success (raw : RawInvoice) (data : InvoiceData) :
  FormSchema_safeParse raw = ParseSuccess data ->
  data_amount data = Number (raw_amount raw) /\
  isNaN (Number (raw_amount raw)) = false /\
  leb (Number (raw_amount raw)) pos_zero = false.
Proof.
  unfold FormSchema_safeParse, parse_amount.
  destruct (parse_customerId _); [|discriminate].
  destruct (isNaN (Number (raw_amount raw))); [discriminate|].
  destruct (leb (Number (raw_amount raw)) pos_zero); [discriminate|].
  destruct (parse_status _); [|discriminate].
  intros [= <-]. auto.
Qed.

(** An amount that is [NaN] or [<= 0] fails validation with one message
    under [amount]. *)
Lemma safeParse_invalid_amount (raw : RawInvoice) :
  isNaN (Number (raw_amount raw)) = true \/
  leb (Number (raw_amount raw)) pos_zero = true ->
  exists issues msg,
    FormSchema_safeParse raw = ParseError issues /\
    errors_amount (fieldErrors issues) = Some [msg].
Proof.
  intros H.
  assert (Ha : exists msg, parse_amount (raw_amount raw)
                           = inr [mkIssue amount msg]).
  { unfold parse_amount. destruct (isNaN (Number (raw_amount raw))).
    - eexists; reflexivity.
    - destruct H as [H|H]; [discriminate|]. rewrite H.
      eexists; reflexivity. }
  destruct Ha as [msg Ha].
  destruct (FormSchema_safeParse raw) as [data|issues] eqn:E.
  - exfalso. unfold FormSchema_safeParse in E. rewrite Ha in E.
    destruct (parse_customerId _), (parse_status _); discriminate.
  - exists issues, msg. split; [reflexivity|].
    unfold fieldErrors, field_errors; cbn [errors_amount].
    rewrite (messages_of_safeParse raw issues amount E), Ha. reflexivity.
Qed.

(** The fields of validated data are the fields of the form. *)
Lemma safeParse_success_fields (raw : RawInvoice) (data : InvoiceData) :
  FormSchema_safeParse raw = ParseSuccess data ->
  raw_customerId raw = Some (EntryString (data_customerId data)) /\
  data_amount data = Number (raw_amount raw) /\
  isNaN (Number (raw_amount raw)) = false /\
  leb (Number (raw_amount raw)) pos_zero = false /\
  raw_status raw = Some (EntryString (status_name (data_status data))).
Proof.
  intros H. destruct (safeParse_success raw data H) as (Ha & Hn & Hl).
  unfold FormSchema_safeParse in H.
  destruct (raw_customerId raw) as [[c|]|]; cbn [parse_customerId] in H;
    try discriminate.
  destruct (parse_amount _) as [a0|]; [|discriminate].
  destruct (raw_status raw) as [[st|]|]; cbn [parse_status] in H;
    try discriminate.
  destruct (String.eqb st "pending") eqn:E1.
  { apply String.eqb_eq in E1. injection H as <-. rewrite E1. auto. }
  destruct (String.eqb st "paid") eqn:E2; [|discriminate].
  apply String.eqb_eq in E2. injection H as <-. rewrite E2. auto.
Qed.

(** The error mapping of a failed validation, key by key. *)
Lemma fieldErrors_of_safeParse (raw : RawInvoice) (issues : list issue) :
  FormSchema_safeParse raw = ParseError issues ->
  let entry (l : list issue) :=
    match map issue_message l with [] => None | msgs => Some msgs end in
  fieldErrors issues
  = mkErrors (entry (issues_of (parse_customerId (raw_customerId raw))))
             (entry (issues_of (parse_amount (raw_amount raw))))
             (entry (issues_of (parse_status (raw_status raw)))).
Proof.
  intros E. cbv zeta. unfold fieldErrors, field_errors.
  rewrite (messages_of_safeParse raw issues customerId E),
    (messages_of_safeParse raw issues amount E),
    (messages_of_safeParse raw issues status E).
  reflexivity.
Qed.

Lemma errors_amount_of_safeParse (raw : RawInvoice) (issues : list issue) :
  FormSchema_safeParse raw = ParseError issues ->
  errors_amount (fieldErrors issues)
  = (if isNaN (Number (raw_amount raw))
     then Some ["Expected number, received nan"]
     else if leb (Number (raw_amount raw)) pos_zero
          then Some ["Please enter an amount greater than $0."]
          else None).
Proof.
  intros E. rewrite (fieldErrors_of_safeParse raw issues E).
  cbn [errors_amount]. unfold parse_amount.
  destruct (isNaN _); [reflexivity|]. destruct (leb _ _); reflexivity.
Qed.

(** What the actions emit. *)
Lemma emitted_createInvoice (prevState : State) (formData : FormData)
                            (w : World) :
  emitted (createInvoice prevState formData) w =
  match CreateInvoice_safeParse (raw_of_form formData) with
  | ParseError _ => []
  | ParseSuccess data =>
      let q := insert_of data w in
      if db_rejects (database w) q then [Sql q]
      else [Sql q; RevalidatePath invoices_path; Redirect invoices_path]
  end.
Proof.
  apply emitted_of_trace. rewrite createInvoice_run.
  destruct (CreateInvoice_safeParse _); cbn;
    [destruct (db_rejects _ _); reflexivity | rewrite app_nil_r; reflexivity].
Qed.

Lemma emitted_updateInvoice (id : string) (prevState : State)
                            (formData : FormData) (w : World) :
  emitted (updateInvoice id prevState formData) w =
  match UpdateInvoice_safeParse (raw_of_form formData) with
  | ParseError _ => []
  | ParseSuccess data =>
      let q := update_of id data in
      if db_rejects (database w) q then [Sql q]
      else [Sql q; RevalidatePath invoices_path; Redirect invoices_path]
  end.
Proof.
  apply emitted_of_trace. rewrite updateInvoice_run.
  destruct (UpdateInvoice_safeParse _); cbn;
    [destruct (db_rejects _ _); reflexivity | rewrite app_nil_r; reflexivity].
Qed.

Lemma emitted_deleteInvoice (id : string) (w : World) :
  emitted (deleteInvoice id) w =
  if db_rejects (database w) (DELETE_invoice id)
  then [Sql (DELETE_invoice id); ConsoleError]
  else [Sql (DELETE_invoice id); RevalidatePath invoices_path].
Proof.
  apply emitted_of_trace. rewrite deleteInvoice_run.
  destruct (db_rejects _ _); reflexivity.
Qed.

(** * The amount at the point of persistence *)

(** C1 (as amended): for every create or update request that reaches the
    persistence step, the amount bound into the statement is [amount * 100]
    for the validated amount, and it is a number greater than zero.  It
    need not be an integer. *)
Theorem bound_amount_positive (prevState : State) (formData : FormData)
    (id : string) (w : World) (ev : event) (a : number) :
  In ev (emitted (createInvoice prevState formData) w) \/
  In ev (emitted (updateInvoice id prevState formData) w) ->
  bound_amount ev = Some a ->
  exists data,
    FormSchema_safeParse (raw_of_form formData) = ParseSuccess data /\
    a = mul (data_amount data) hundred /\
    ltb pos_zero a = true.
Proof.
  intros Hin Ha.
  rewrite emitted_createInvoice, emitted_updateInvoice in Hin.
  unfold CreateInvoice_safeParse, UpdateInvoice_safeParse in Hin.
  destruct (FormSchema_safeParse (raw_of_form formData)) as [data|issues] eqn:E;
    [|destruct Hin as [[]|[]]].
  exists data. split; [reflexivity|].
  assert (Hq : a = mul (data_amount data) hundred).
  { cbv zeta in Hin.
    destruct Hin as [Hin|Hin];
      destruct (db_rejects _ _); cbn [In] in Hin;
      repeat (destruct Hin as [<-|Hin];
                [cbn [bound_amount insert_of update_of] in Ha; congruence|]);
      try contradiction. }
  split; [exact Hq|]. subst a.
  destruct (safeParse_success _ _ E) as (Hd & Hnan & Hle). rewrite Hd.
  apply mul_hundred_positive; [apply well_formed_Number|exact Hnan|exact Hle].
Qed.

Lemma bound_amount_positive_witness :
  exists data,
    FormSchema_safeParse (raw_of_form (sample_form "10.50")) = ParseSuccess data /\
    of_Z 1050 = mul (data_amount data) hundred /\
    ltb pos_zero (of_Z 1050) = true.
Proof.
  apply (bound_amount_positive initialState (sample_form "10.50") "1"
           sample_world
           (Sql (INSERT_invoice "abc" (of_Z 1050) "pending" "2024-11-03"))
           (of_Z 1050)).
  - left. vm_compute. left. reflexivity.
  - reflexivity.
Defined.

(** C1 (as stated) fails: the amount [10.555] passes validation and the
    value bound into the [INSERT] is 1055.5, which is not an integer. *)
Lemma bound_amount_not_integer :
  let a := mul (StringToNumber "10.555") hundred in
  let ev := Sql (INSERT_invoice "abc" a "pending" "2024-11-03") in
  In ev (emitted (createInvoice initialState (sample_form "10.555"))
                 sample_world) /\
  bound_amount ev = Some a /\
  ~ (ltb pos_zero a = true /\ isInteger a = true).
Proof.
  cbv zeta. split; [vm_compute; left; reflexivity|].
  split; [reflexivity|]. intros [_ H]. vm_compute in H. discriminate.
Qed.

(** An amount with two decimals is not safe either: [1.15 * 100] is
    [114.99999999999999]. *)
Example one_fifteen_in_cents :
  integer_value (mul (StringToNumber "1.15") hundred) = None /\
  ltb (mul (StringToNumber "1.15") hundred) (of_Z 115) = true.
Proof. split; reflexivity. Qed.

(** * Invalid amounts *)

(** C5: when the amount string does not parse as a number or parses to a
    value [<= 0], validation fails with a non-empty list of messages under
    [amount]; [createInvoice] and [updateInvoice] return that failure and
    leave the world as it was, so no statement is sent. *)
Theorem invalid_amount_rejected (prevState : State) (formData : FormData)
    (id : string) (w : World) (s : string) :
  FormData_get "amount" formData = Some (EntryString s) ->
  isNaN (StringToNumber s) = true \/ leb (StringToNumber s) pos_zero = true ->
  exists issues msgs,
    FormSchema_safeParse (raw_of_form formData) = ParseError issues /\
    errors_amount (fieldErrors issues) = Some msgs /\ msgs <> [] /\
    createInvoice prevState formData w
    = (Returned (validation_failure issues
                   "Missing Fields. Failed to Create Invoice."), w) /\
    updateInvoice id prevState formData w
    = (Returned (validation_failure issues
                   "Missing Fields. Failed to Update Invoice."), w) /\
    statements_of (emitted (createInvoice prevState formData) w) = [] /\
    statements_of (emitted (updateInvoice id prevState formData) w) = [].
Proof.
  intros Hget Hbad.
  destruct (safeParse_invalid_amount (raw_of_form formData))
    as (issues & msg & E & Hmsg).
  { cbn [raw_of_form raw_amount]. rewrite Hget. exact Hbad. }
  exists issues, [msg]. split; [exact E|]. split; [exact Hmsg|].
  split; [discriminate|].
  rewrite emitted_createInvoice, emitted_updateInvoice.
  rewrite createInvoice_run, updateInvoice_run.
  unfold CreateInvoice_safeParse, UpdateInvoice_safeParse. rewrite E.
  repeat split; reflexivity.
Qed.

Lemma invalid_amount_rejected_witness :
  exists issues msgs,
    FormSchema_safeParse (raw_of_form (sample_form "abc")) = ParseError issues /\
    errors_amount (fieldErrors issues) = Some msgs /\ msgs <> [] /\
    createInvoice initialState (sample_form "abc") sample_world
    = (Returned (validation_failure issues
                   "Missing Fields. Failed to Create Invoice."), sample_world) /\
    updateInvoice "1" initialState (sample_form "abc") sample_world
    = (Returned (validation_failure issues
                   "Missing Fields. Failed to Update Invoice."), sample_world) /\
    statements_of (emitted (createInvoice initialState (sample_form "abc"))
                     sample_world) = [] /\
    statements_of (emitted (updateInvoice "1" initialState (sample_form "abc"))
                     sample_world) = [].
Proof.
  apply (invalid_amount_rejected initialState (sample_form "abc") "1"
           sample_world "abc").
  - reflexivity.
  - left. reflexivity.
Defined.

(** * The examples of the specification *)

(** C6 (as amended): on [{customerId: "abc", amount: "10.50", status:
    "pending"}] validation succeeds and the amount bound into the [INSERT]
    is the integer 1050; when the database executes the statement the row
    added to the table carries that amount, and when it refuses nothing is
    added.  On every input whose amount is ["0"] validation fails and the
    entry under [amount] is exactly
    [["Please enter an amount greater than $0."]]; the mapping is exactly
    [{amount: [...]}] when [customerId] is a string and [status] is one of
    the two strings. *)
Theorem example_amounts (prevState : State) (w : World)
    (formData : FormData) :
  let good := sample_form "10.50" in
  let q := INSERT_invoice "abc" (of_Z 1050) "pending" (today w) in
  let msg := "Please enter an amount greater than $0." in
  CreateInvoice_safeParse (raw_of_form good)
  = ParseSuccess (mkInvoiceData "abc" (StringToNumber "10.50") pending) /\
  mul (StringToNumber "10.50") hundred = of_Z 1050 /\
  integer_value (of_Z 1050) = Some 1050 /\
  statements_of (emitted (createInvoice prevState good) w) = [Sql q] /\
  (db_rejects (database w) q = false ->
   fst (createInvoice prevState good w) = Thrown (NEXT_REDIRECT invoices_path)
   /\ db_invoices (database (snd (createInvoice prevState good w)))
      = (db_invoices (database w)
         ++ [mkInvoice (db_next_id (database w)) "abc" (of_Z 1050)
                       "pending" (today w)])%list) /\
  (db_rejects (database w) q = true ->
   fst (createInvoice prevState good w)
   = Returned (persistence_failure
                 "Database Error: Failed to Create Invoice.")
   /\ db_invoices (database (snd (createInvoice prevState good w)))
      = db_invoices (database w)) /\
  (FormData_get "amount" formData = Some (EntryString "0") ->
   exists issues,
     CreateInvoice_safeParse (raw_of_form formData) = ParseError issues /\
     errors_amount (fieldErrors issues) = Some [msg] /\
     createInvoice prevState formData w
     = (Returned (validation_failure issues
                    "Missing Fields. Failed to Create Invoice."), w) /\
     ((exists c, FormData_get "customerId" formData = Some (EntryString c)) ->
      FormData_get "status" formData = Some (EntryString "pending") \/
      FormData_get "status" formData = Some (EntryString "paid") ->
      fieldErrors issues = mkErrors None (Some [msg]) None)).
Proof.
  cbv zeta.
  split; [reflexivity|]. split; [reflexivity|]. split; [reflexivity|].
  assert (Hgood : CreateInvoice_safeParse (raw_of_form (sample_form "10.50"))
                  = ParseSuccess
                      (mkInvoiceData "abc" (StringToNumber "10.50") pending))
    by reflexivity.
  assert (Hq : insert_of (mkInvoiceData "abc" (StringToNumber "10.50") pending)
                         w
               = INSERT_invoice "abc" (of_Z 1050) "pending" (today w))
    by reflexivity.
  rewrite emitted_createInvoice, createInvoice_run, Hgood. cbv zeta.
  rewrite Hq.
  split; [destruct (db_rejects _ _); reflexivity|].
  split; [intros ->; split; reflexivity|].
  split; [intros ->; split; reflexivity|].
  intros Hzero.
  destruct (safeParse_invalid_amount (raw_of_form formData))
    as (issues & m & E & _).
  { right. cbn [raw_of_form raw_amount]. rewrite Hzero. reflexivity. }
  exists issues. unfold CreateInvoice_safeParse.
  split; [exact E|]. split; [|split].
  - rewrite (errors_amount_of_safeParse _ _ E).
    cbn [raw_of_form raw_amount]. rewrite Hzero. reflexivity.
  - rewrite createInvoice_run. unfold CreateInvoice_safeParse. rewrite E.
    reflexivity.
  - intros [c Hc] Hs. rewrite (fieldErrors_of_safeParse _ _ E).
    cbn [raw_of_form raw_customerId raw_amount raw_status].
    rewrite Hc, Hzero. destruct Hs as [-> | ->]; reflexivity.
Qed.

Lemma example_amounts_witness :
  (fst (createInvoice initialState (sample_form "10.50") sample_world)
   = Thrown (NEXT_REDIRECT invoices_path) /\
   db_invoices
     (database (snd (createInvoice initialState (sample_form "10.50")
                       sample_world)))
   = (db_invoices (database sample_world)
      ++ [mkInvoice (db_next_id (database sample_world)) "abc" (of_Z 1050)
                    "pending" (today sample_world)])%list) /\
  exists issues,
    CreateInvoice_safeParse (raw_of_form (sample_form "0"))
    = ParseError issues /\
    errors_amount (fieldErrors issues)
    = Some ["Please enter an amount greater than $0."] /\
    fieldErrors issues
    = mkErrors None (Some ["Please enter an amount greater than $0."]) None.
Proof.
  destruct (example_amounts initialState sample_world (sample_form "0"))
    as (_ & _ & _ & _ & Hok & _ & Hzero).
  split; [exact (Hok eq_refl)|].
  destruct (Hzero eq_refl) as (issues & E & Ha & _ & Hall).
  exists issues. split; [exact E|]. split; [exact Ha|].
  apply Hall; [exists "abc"; reflexivity | left; reflexivity].
Defined.

(** C6 (as stated) fails on the input [{amount: "0"}]: [customerId] and
    [status] are missing, and the error mapping carries their messages
    beside the one under [amount]. *)
Lemma amount_only_form_errors :
  let form := [("amount", EntryString "0")] in
  FormData_get "amount" form = Some (EntryString "0") /\
  fst (createInvoice initialState form sample_world)
  = Returned
      (mkState
         (Some (mkErrors (Some ["Please select a customer."])
                  (Some ["Please enter an amount greater than $0."])
                  (Some ["Please select an invoice status."])))
         (Some "Missing Fields. Failed to Create Invoice.")) /\
  ~ fst (createInvoice initialState form sample_world)
    = Returned
        (mkState
           (Some (mkErrors None
                    (Some ["Please enter an amount greater than $0."]) None))
           (Some "Missing Fields. Failed to Create Invoice.")).
Proof.
  cbv zeta. split; [reflexivity|]. split; [reflexivity|].
  vm_compute. discriminate.
Qed.

(** * Invoice status *)

(** C7: a status that is neither the string ["pending"] nor the string
    ["paid"] makes validation fail, with a message under [status]; the
    actions return the failure instead of a typed record. *)
Theorem unknown_status_rejected (raw : RawInvoice) :
  raw_status raw <> Some (EntryString "pending") ->
  raw_status raw <> Some (EntryString "paid") ->
  exists issues msgs,
    FormSchema_safeParse raw = ParseError issues /\
    success (FormSchema_safeParse raw) = false /\
    errors_status (fieldErrors issues) = Some msgs /\ msgs <> [].
Proof.
  intros Hpending Hpaid.
  assert (Hs : exists msg, parse_status (raw_status raw)
                           = inr [mkIssue status msg]).
  { destruct (raw_status raw) as [[s|]|]; try (eexists; reflexivity).
    unfold parse_status.
    destruct (String.eqb_spec s "pending") as [->|_]; [congruence|].
    destruct (String.eqb_spec s "paid") as [->|_]; [congruence|].
    eexists; reflexivity. }
  destruct Hs as [msg Hs].
  destruct (FormSchema_safeParse raw) as [data|issues] eqn:E.
  - exfalso. unfold FormSchema_safeParse in E. rewrite Hs in E.
    destruct (parse_customerId _), (parse_amount _); discriminate.
  - exists issues, [msg]. repeat split; try discriminate.
    unfold fieldErrors, field_errors; cbn [errors_status].
    rewrite (messages_of_safeParse raw issues status E), Hs. reflexivity.
Qed.

Lemma unknown_status_rejected_witness :
  exists issues msgs,
    FormSchema_safeParse
      (mkRawInvoice (Some (EntryString "abc")) (Some (EntryString "10.50"))
                    (Some (EntryString "draft")))
    = ParseError issues /\
    success (FormSchema_safeParse
      (mkRawInvoice (Some (EntryString "abc")) (Some (EntryString "10.50"))
                    (Some (EntryString "draft")))) = false /\
    errors_status (fieldErrors issues) = Some msgs /\ msgs <> [].
Proof.
  apply (unknown_status_rejected
           (mkRawInvoice (Some (EntryString "abc"))
                         (Some (EntryString "10.50"))
                         (Some (EntryString "draft")))); discriminate.
Defined.

(** * Deleting *)

Lemma filter_no_match (id : string) (rows : list Invoice) :
  find (fun r => String.eqb (invoice_id r) id) rows = None ->
  filter (fun r => negb (String.eqb (invoice_id r) id)) rows = rows.
Proof.
  induction rows as [|r rows IH]; [reflexivity|]. cbn [find filter].
  destruct (String.eqb (invoice_id r) id); [discriminate|].
  intros H. cbn [negb]. rewrite (IH H). reflexivity.
Qed.

(** C2 (as amended): for an identifier that no row matches, [deleteInvoice]
    returns and never redirects.  When the database executes the [DELETE]
    (a statement that matches no row is not an error) the table is left as
    it was, the cache-invalidation hook runs and the message is
    ["Deleted Invoice."]; when the database raises an error the persistence
    failure is reported and no hook runs. *)
Theorem delete_missing_invoice (id : string) (w : World) :
  matching_row (database w) id = None ->
  (exists state, fst (deleteInvoice id w) = Returned state) /\
  (forall path, ~ In (Redirect path) (emitted (deleteInvoice id) w)) /\
  db_invoices (database (snd (deleteInvoice id w)))
  = db_invoices (database w) /\
  (db_rejects (database w) (DELETE_invoice id) = false ->
   fst (deleteInvoice id w) = Returned (mkState None (Some "Deleted Invoice."))
   /\ hooks_of (emitted (deleteInvoice id) w)
      = [RevalidatePath invoices_path]) /\
  (db_rejects (database w) (DELETE_invoice id) = true ->
   fst (deleteInvoice id w)
   = Returned (persistence_failure
                 "Database Error: Failed to Delete Invoice.")
   /\ hooks_of (emitted (deleteInvoice id) w) = []).
Proof.
  intros Hrow. rewrite emitted_deleteInvoice, deleteInvoice_run.
  destruct (db_rejects (database w) (DELETE_invoice id)); cbn [fst snd].
  - split; [eexists; reflexivity|]. split.
    { intros path [H|[H|[]]]; discriminate. }
    split; [reflexivity|]. split; [discriminate|]. intros _.
    split; reflexivity.
  - split; [eexists; reflexivity|]. split.
    { intros path [H|[H|[]]]; discriminate. }
    split.
    { unfold after, with_invoices; cbn. apply filter_no_match. exact Hrow. }
    split; [|discriminate]. intros _. split; reflexivity.
Qed.

Lemma delete_missing_invoice_witness :
  (exists state, fst (deleteInvoice missing_id sample_world) = Returned state) /\
  (forall path,
      ~ In (Redirect path) (emitted (deleteInvoice missing_id) sample_world)) /\
  db_invoices (database (snd (deleteInvoice missing_id sample_world)))
  = db_invoices (database sample_world) /\
  (db_rejects (database sample_world) (DELETE_invoice missing_id) = false ->
   fst (deleteInvoice missing_id sample_world)
   = Returned (mkState None (Some "Deleted Invoice."))
   /\ hooks_of (emitted (deleteInvoice missing_id) sample_world)
      = [RevalidatePath invoices_path]) /\
  (db_rejects (database sample_world) (DELETE_invoice missing_id) = true ->
   fst (deleteInvoice missing_id sample_world)
   = Returned (persistence_failure
                 "Database Error: Failed to Delete Invoice.")
   /\ hooks_of (emitted (deleteInvoice missing_id) sample_world) = []).
Proof.
  apply (delete_missing_invoice missing_id sample_world). reflexivity.
Defined.

(** C2 (as stated) fails: no row carries [missing_id], the database
    executes the [DELETE], and [deleteInvoice] answers ["Deleted Invoice."]
    after running the cache-invalidation hook. *)
Lemma missing_row_delete_reports_success :
  matching_row (database sample_world) missing_id = None /\
  fst (deleteInvoice missing_id sample_world)
  = Returned (mkState None (Some "Deleted Invoice.")) /\
  emitted (deleteInvoice missing_id) sample_world
  = [Sql (DELETE_invoice missing_id); RevalidatePath invoices_path] /\
  ~ (fst (deleteInvoice missing_id sample_world)
     = Returned (persistence_failure
                   "Database Error: Failed to Delete Invoice.")
     /\ hooks_of (emitted (deleteInvoice missing_id) sample_world) = []).
Proof.
  repeat split; try reflexivity. intros [H _]. vm_compute in H. discriminate.
Qed.

(** * Hooks after a mutation *)

(** C3 (as amended): [createInvoice] and [updateInvoice] fire the
    cache-invalidation hook and then the redirect hook when the statement
    is executed; when validation or persistence fails they fire neither and
    return the structured error.  [deleteInvoice] fires the
    cache-invalidation hook alone when the statement is executed and
    returns ["Deleted Invoice."]; when persistence fails it fires no hook
    and returns the structured error. *)
Theorem mutation_hooks (prevState : State) (formData : FormData)
    (id : string) (w : World) :
  let create := createInvoice prevState formData in
  let update := updateInvoice id prevState formData in
  let delete := deleteInvoice id in
  let both := [RevalidatePath invoices_path; Redirect invoices_path] in
  (forall data,
      FormSchema_safeParse (raw_of_form formData) = ParseSuccess data ->
      (db_rejects (database w) (insert_of data w) = false ->
       hooks_of (emitted create w) = both /\
       fst (create w) = Thrown (NEXT_REDIRECT invoices_path)) /\
      (db_rejects (database w) (insert_of data w) = true ->
       hooks_of (emitted create w) = [] /\
       fst (create w) = Returned (persistence_failure
                          "Database Error: Failed to Create Invoice.")) /\
      (db_rejects (database w) (update_of id data) = false ->
       hooks_of (emitted update w) = both /\
       fst (update w) = Thrown (NEXT_REDIRECT invoices_path)) /\
      (db_rejects (database w) (update_of id data) = true ->
       hooks_of (emitted update w) = [] /\
       fst (update w) = Returned (persistence_failure
                          "Database Error: Failed to Update Invoice."))) /\
  (forall issues,
      FormSchema_safeParse (raw_of_form formData) = ParseError issues ->
      hooks_of (emitted create w) = [] /\
      fst (create w) = Returned (validation_failure issues
                         "Missing Fields. Failed to Create Invoice.") /\
      hooks_of (emitted update w) = [] /\
      fst (update w) = Returned (validation_failure issues
                         "Missing Fields. Failed to Update Invoice.")) /\
  (db_rejects (database w) (DELETE_invoice id) = false ->
   hooks_of (emitted delete w) = [RevalidatePath invoices_path] /\
   fst (delete w) = Returned (mkState None (Some "Deleted Invoice."))) /\
  (db_rejects (database w) (DELETE_invoice id) = true ->
   hooks_of (emitted delete w) = [] /\
   fst (delete w) = Returned (persistence_failure
                      "Database Error: Failed to Delete Invoice.")).
Proof.
  cbv zeta.
  rewrite emitted_createInvoice, emitted_updateInvoice, emitted_deleteInvoice,
    createInvoice_run, updateInvoice_run, deleteInvoice_run.
  unfold CreateInvoice_safeParse, UpdateInvoice_safeParse.
  split; [|split; [|split]].
  - intros data ->. cbv zeta.
    split; [|split; [|split]]; intros ->; split; reflexivity.
  - intros issues ->. repeat split; reflexivity.
  - intros ->. split; reflexivity.
  - intros ->. split; reflexivity.
Qed.

Lemma mutation_hooks_witness :
  (hooks_of (emitted (createInvoice initialState (sample_form "10.50"))
                     sample_world)
   = [RevalidatePath invoices_path; Redirect invoices_path] /\
   fst (createInvoice initialState (sample_form "10.50") sample_world)
   = Thrown (NEXT_REDIRECT invoices_path)) /\
  (hooks_of (emitted (updateInvoice missing_id initialState
                        (sample_form "10.50")) offline_world) = [] /\
   fst (updateInvoice missing_id initialState (sample_form "10.50")
          offline_world)
   = Returned (persistence_failure
                 "Database Error: Failed to Update Invoice.")) /\
  (hooks_of (emitted (deleteInvoice missing_id) offline_world) = [] /\
   fst (deleteInvoice missing_id offline_world)
   = Returned (persistence_failure
                 "Database Error: Failed to Delete Invoice.")).
Proof.
  split; [|split].
  - destruct (mutation_hooks initialState (sample_form "10.50") missing_id
                sample_world) as [H _].
    destruct (H _ eq_refl) as [Hc _]. apply Hc. reflexivity.
  - destruct (mutation_hooks initialState (sample_form "10.50") missing_id
                offline_world) as [H _].
    destruct (H _ eq_refl) as (_ & _ & _ & Hu). apply Hu. reflexivity.
  - destruct (mutation_hooks initialState (sample_form "10.50") missing_id
                offline_world) as (_ & _ & _ & Hd).
    apply Hd. reflexivity.
Defined.

(** C3 (as stated) fails for [deleteInvoice]: the row is deleted, the
    cache-invalidation hook fires, and the redirect hook does not. *)
Lemma delete_does_not_redirect :
  let id := invoice_id sample_invoice in
  let w := world_with_invoice in
  matching_row (database w) id = Some sample_invoice /\
  db_rejects (database w) (DELETE_invoice id) = false /\
  db_invoices (database (snd (deleteInvoice id w))) = [] /\
  hooks_of (emitted (deleteInvoice id) w) = [RevalidatePath invoices_path] /\
  ~ hooks_of (emitted (deleteInvoice id) w)
    = [RevalidatePath invoices_path; Redirect invoices_path].
Proof. cbv zeta. repeat split; try reflexivity. vm_compute. discriminate. Qed.

(** * Login *)

Lemma hd_error_filter {A} (f : A -> bool) (l : list A) :
  hd_error (filter f l) = find f l.
Proof.
  induction l as [|x l IH]; [reflexivity|]. cbn [filter find].
  destruct (f x); [reflexivity | exact IH].
Qed.

(** [getUser], case by case. *)
Lemma getUser_run (email : string) (w : World) :
  getUser email w =
  if db_rejects (database w) (SELECT_user email)
  then (Thrown (Error "Failed to fetch user."),
        logged w [Sql (SELECT_user email); ConsoleError])
  else (Returned (matching_user (database w) email),
        logged w [Sql (SELECT_user email)]).
Proof.
  destruct w as [db d tr].
  cbv beta iota delta [getUser sql_users bind try_catch emit get_database
    throw ret console_error logged database today trace].
  destruct (db_rejects db _); cbn; rewrite <- ?app_assoc;
    [reflexivity|]. rewrite hd_error_filter. reflexivity.
Qed.

(** [authorize] on credentials that do not parse: nothing but the log. *)
Lemma authorize_unparsed (isEmail : string -> bool)
    (bcrypt_compare : string -> string -> bool)
    (credentials : Credentials) (w : World) :
  parse_credentials isEmail credentials = None ->
  authorize isEmail bcrypt_compare credentials w
  = (Returned None, logged w [ConsoleLog "Invalid credentials"]).
Proof. unfold authorize. intros ->. reflexivity. Qed.

(** [authorize] on credentials that parse, the lookup answered. *)
Lemma authorize_parsed (isEmail : string -> bool)
    (bcrypt_compare : string -> string -> bool)
    (credentials : Credentials) (email password : string) (w : World) :
  parse_credentials isEmail credentials = Some (email, password) ->
  db_rejects (database w) (SELECT_user email) = false ->
  authorize isEmail bcrypt_compare credentials w =
  match matching_user (database w) email with
  | None => (Returned None, logged w [Sql (SELECT_user email)])
  | Some u =>
      if bcrypt_compare password (user_password u)
      then (Returned (Some u), logged w [Sql (SELECT_user email)])
      else (Returned None,
            logged w [Sql (SELECT_user email);
                      ConsoleLog "Invalid credentials"])
  end.
Proof.
  unfold authorize. intros -> Hdb. unfold bind at 1.
  rewrite getUser_run, Hdb.
  destruct (matching_user (database w) email) as [u|]; [|reflexivity].
  destruct (bcrypt_compare password (user_password u)); [reflexivity|].
  destruct w as [db d tr]. cbn. rewrite <- app_assoc. reflexivity.
Qed.

(** C10: [authorize] returns [null] when the email is not a valid email
    address or the password has fewer than 6 characters, and sends no
    statement to the database; it also returns [null] when the
    credentials are well formed and no user row has the email. *)
Theorem authorize_rejects (isEmail : string -> bool)
    (bcrypt_compare : string -> string -> bool)
    (credentials : Credentials) (w : World) :
  let run := authorize isEmail bcrypt_compare credentials in
  ((forall email, cred_email credentials = Some email ->
                  isEmail email = false) \/
   (forall password, cred_password credentials = Some password ->
                     (String.length password < 6)%nat) ->
   fst (run w) = Returned None /\ statements_of (emitted run w) = []) /\
  (forall email password,
      parse_credentials isEmail credentials = Some (email, password) ->
      db_rejects (database w) (SELECT_user email) = false ->
      matching_user (database w) email = None ->
      fst (run w) = Returned None).
Proof.
  cbv zeta. split.
  - intros Hbad.
    assert (Hp : parse_credentials isEmail credentials = None).
    { unfold parse_credentials.
      destruct (cred_email credentials) as [email|]; [|reflexivity].
      destruct (cred_password credentials) as [password|]; [|reflexivity].
      destruct Hbad as [H|H].
      - rewrite (H email eq_refl). reflexivity.
      - specialize (H password eq_refl). apply Nat.leb_gt in H.
        rewrite H, andb_false_r. reflexivity. }
    split.
    + rewrite (authorize_unparsed _ _ _ _ Hp). reflexivity.
    + rewrite (emitted_of_trace _ w [ConsoleLog "Invalid credentials"]);
        [reflexivity|]. rewrite (authorize_unparsed _ _ _ _ Hp). reflexivity.
  - intros email password Hp Hdb Hnone.
    rewrite (authorize_parsed _ _ _ _ _ _ Hp Hdb), Hnone. reflexivity.
Qed.

Lemma authorize_rejects_witness :
  let isEmail := fun s => String.eqb s "user@nextmail.com" in
  let compare := fun p h => String.eqb h "$2b$10$hash" && String.eqb p "123456" in
  (fst (authorize isEmail compare
          (mkCredentials (Some "user") (Some "123456")) sample_world)
   = Returned None /\
   statements_of
     (emitted (authorize isEmail compare
                 (mkCredentials (Some "user") (Some "123456"))) sample_world)
   = []) /\
  fst (authorize isEmail compare
         (mkCredentials (Some "user@nextmail.com") (Some "123456"))
         world_without_users) = Returned None.
Proof.
  cbv zeta. split.
  - apply (authorize_rejects (fun s => String.eqb s "user@nextmail.com")
             (fun p h => String.eqb h "$2b$10$hash" && String.eqb p "123456")
             (mkCredentials (Some "user") (Some "123456")) sample_world).
    left. intros email [= <-]. reflexivity.
  - apply (authorize_rejects (fun s => String.eqb s "user@nextmail.com")
             (fun p h => String.eqb h "$2b$10$hash" && String.eqb p "123456")
             (mkCredentials (Some "user@nextmail.com") (Some "123456"))
             world_without_users)
      with (email := "user@nextmail.com") (password := "123456");
      reflexivity.
Defined.

(** [authenticate] passes on what [signIn] did to the world. *)
Lemma authenticate_run (signIn : string -> FormData -> Async unit)
    (prevState : option string) (formData : FormData) (w : World) :
  authenticate signIn prevState formData w =
  match signIn "credentials" formData w with
  | (Returned _, w') => (Returned None, w')
  | (Thrown (AuthError type), w') =>
      (Returned (Some (if String.eqb type "CredentialsSignin"
                       then "Invalid credentials."
                       else "Something went wrong.")), w')
  | (Thrown e, w') => (Thrown e, w')
  end.
Proof.
  unfold authenticate, try_catch, bind.
  destruct (signIn "credentials" formData w) as [[u|e] w'];
    [reflexivity|].
  destruct e; try reflexivity.
  destruct (String.eqb type "CredentialsSignin"); reflexivity.
Qed.

(** C4: [authenticate] returns ["Invalid credentials."] exactly when
    [signIn] throws an [AuthError] of type [CredentialsSignin], returns
    ["Something went wrong."] for an [AuthError] of any other type, and
    rethrows everything that is not an [AuthError].  With the credentials
    provider, a known email with a wrong password is such a
    [CredentialsSignin]: the message is ["Invalid credentials."] and no
    session is created. *)
Theorem authenticate_messages (signIn : string -> FormData -> Async unit)
    (prevState : option string) (formData : FormData) (w : World) :
  let attempt := signIn "credentials" formData w in
  let result := authenticate signIn prevState formData w in
  (fst result = Returned (Some "Invalid credentials.") <->
   fst attempt = Thrown (AuthError "CredentialsSignin")) /\
  (forall type, fst attempt = Thrown (AuthError type) ->
                type <> "CredentialsSignin" ->
                fst result = Returned (Some "Something went wrong.")) /\
  (forall e, fst attempt = Thrown e -> (forall type, e <> AuthError type) ->
             fst result = Thrown e) /\
  snd result = snd attempt /\
  (forall (isEmail : string -> bool)
          (bcrypt_compare : string -> string -> bool)
          (email password : string) (u : User),
      parse_credentials isEmail (credentials_of_form formData)
      = Some (email, password) ->
      db_rejects (database w) (SELECT_user email) = false ->
      matching_user (database w) email = Some u ->
      bcrypt_compare password (user_password u) = false ->
      let login :=
        authenticate
          (fun _ form => signIn_credentials isEmail bcrypt_compare
                           (credentials_of_form form))
          prevState formData in
      fst (login w) = Returned (Some "Invalid credentials.") /\
      forall address, ~ In (SessionCreated address) (emitted login w)).
Proof.
  cbv zeta. rewrite authenticate_run.
  split; [|split; [|split; [|split]]].
  - destruct (signIn "credentials" formData w) as [[u|e] w']; cbn [fst].
    + split; discriminate.
    + destruct e; try (split; discriminate).
      destruct (String.eqb_spec type "CredentialsSignin") as [->|Hne].
      * split; reflexivity.
      * split; [discriminate|]. intros [= H]. contradiction.
  - intros type Ht Hne.
    destruct (signIn "credentials" formData w) as [[u|e] w']; cbn [fst] in *;
      [discriminate|]. injection Ht as ->.
    apply String.eqb_neq in Hne. rewrite Hne. reflexivity.
  - intros e He Hne.
    destruct (signIn "credentials" formData w) as [[u|e'] w']; cbn [fst] in *;
      [discriminate|]. injection He as ->.
    destruct e; try reflexivity. exfalso. exact (Hne type eq_refl).
  - destruct (signIn "credentials" formData w) as [[u|e] w']; [reflexivity|].
    destruct e; reflexivity.
  - intros isEmail bcrypt_compare email password u Hp Hdb Hu Hcmp.
    assert (Hrun : authenticate
                     (fun _ form => signIn_credentials isEmail bcrypt_compare
                                      (credentials_of_form form))
                     prevState formData w
                   = (Returned (Some "Invalid credentials."),
                      logged w [Sql (SELECT_user email);
                                ConsoleLog "Invalid credentials"])).
    { rewrite authenticate_run. unfold signIn_credentials, bind.
      rewrite (authorize_parsed _ _ _ _ _ _ Hp Hdb), Hu, Hcmp. reflexivity. }
    split; [rewrite Hrun; reflexivity|].
    intros address.
    rewrite (emitted_of_trace _ w [Sql (SELECT_user email);
                                   ConsoleLog "Invalid credentials"]);
      [|rewrite Hrun; reflexivity].
    intros [H|[H|[]]]; discriminate.
Qed.

Lemma authenticate_messages_witness :
  let isEmail := fun s => String.eqb s "user@nextmail.com" in
  let compare := fun p h : string => false in
  let form := [("email", EntryString "user@nextmail.com");
               ("password", EntryString "wrong-password")] in
  let login :=
    authenticate
      (fun _ form => signIn_credentials isEmail compare
                       (credentials_of_form form)) None form in
  fst (login sample_world) = Returned (Some "Invalid credentials.") /\
  forall address, ~ In (SessionCreated address) (emitted login sample_world).
Proof.
  cbv zeta.
  apply (authenticate_messages
           (fun _ _ => ret tt) None
           [("email", EntryString "user@nextmail.com");
            ("password", EntryString "wrong-password")] sample_world)
    with (email := "user@nextmail.com") (password := "wrong-password")
         (u := mkUser "user@nextmail.com" "$2b$10$hash");
    reflexivity.
Defined.

(** * The edit page *)

(** [Page], case by case: both queries are sent, and the first failure
    wins. *)
Lemma Page_run (id : string) (w : World) :
  Page id w =
  (if db_rejects (database w) (SELECT_invoice id) then Thrown DatabaseError
   else if db_rejects (database w) SELECT_customers then Thrown DatabaseError
   else match matching_row (database w) id with
        | None => Thrown NEXT_NOT_FOUND
        | Some invoice =>
            Returned (edit_view invoice (db_customers (database w)))
        end,
   logged w [Sql (SELECT_invoice id); Sql SELECT_customers]).
Proof.
  destruct w as [db d tr].
  cbv beta iota delta [Page Promise_all fetchInvoiceById fetchCustomers bind
    emit get_database throw ret notFound logged database today trace
    matching_row].
  cbn [database today trace].
  destruct (db_rejects db (SELECT_invoice id));
    destruct (db_rejects db SELECT_customers); cbn;
    rewrite <- ?app_assoc; try reflexivity.
  destruct (find _ (db_invoices db)); reflexivity.
Qed.

(** C8 (as amended): the edit page sends the invoice query and the
    customers query.  When both are answered, an identifier that no row
    matches gives the not-found view, which is not the error boundary, and
    an identifier with a row gives the edit view of that row.  When one of
    the two queries fails, the error boundary is shown, with or without a
    matching row. *)
Theorem edit_page_not_found (id : string) (w : World) :
  emitted (Page id) w = [Sql (SELECT_invoice id); Sql SELECT_customers] /\
  (db_rejects (database w) (SELECT_invoice id) = false ->
   db_rejects (database w) SELECT_customers = false ->
   (matching_row (database w) id = None ->
    fst (Page id w) = Thrown NEXT_NOT_FOUND /\
    render_route (Page id) w = NotFoundView /\
    render_route (Page id) w <> ErrorBoundary) /\
   (forall invoice,
       matching_row (database w) id = Some invoice ->
       render_route (Page id) w
       = edit_view invoice (db_customers (database w)))) /\
  (db_rejects (database w) (SELECT_invoice id) = true \/
   db_rejects (database w) SELECT_customers = true ->
   render_route (Page id) w = ErrorBoundary).
Proof.
  split; [|split].
  - apply emitted_of_trace. rewrite Page_run. reflexivity.
  - intros H1 H2. unfold render_route. rewrite Page_run, H1, H2. cbn [fst].
    split.
    + intros ->. split; [reflexivity|split; [reflexivity|discriminate]].
    + intros invoice ->. reflexivity.
  - intros H. unfold render_route. rewrite Page_run. cbn [fst].
    destruct (db_rejects (database w) (SELECT_invoice id)); [reflexivity|].
    destruct H as [H|H]; [discriminate|]. rewrite H. reflexivity.
Qed.

Lemma edit_page_not_found_witness :
  (render_route (Page missing_id) world_with_invoice = NotFoundView /\
   render_route (Page (invoice_id sample_invoice)) world_with_invoice
   = edit_view sample_invoice ["abc"]) /\
  render_route (Page (invoice_id sample_invoice)) world_customers_down
  = ErrorBoundary.
Proof.
  split; [split|].
  - destruct (edit_page_not_found missing_id world_with_invoice)
      as (_ & H & _).
    destruct (H eq_refl eq_refl) as [Hnone _].
    destruct (Hnone eq_refl) as (_ & Hview & _). exact Hview.
  - destruct (edit_page_not_found (invoice_id sample_invoice)
                world_with_invoice) as (_ & H & _).
    destruct (H eq_refl eq_refl) as [_ Hsome].
    exact (Hsome sample_invoice eq_refl).
  - destruct (edit_page_not_found (invoice_id sample_invoice)
                world_customers_down) as (_ & _ & H).
    apply H. right. reflexivity.
Defined.

(** C8 (as stated) fails: no row carries [missing_id] and the invoice
    query says so, but the customers query fails, and the page shows the
    error boundary instead of the not-found view. *)
Lemma missing_invoice_error_boundary :
  matching_row (database world_customers_down) missing_id = None /\
  db_rejects (database world_customers_down) (SELECT_invoice missing_id)
  = false /\
  render_route (Page missing_id) world_customers_down = ErrorBoundary /\
  ~ render_route (Page missing_id) world_customers_down = NotFoundView.
Proof. repeat split; try reflexivity. vm_compute. discriminate. Qed.

(** * Error messages of a field *)

(** C9: [ErrorMessages] returns a container with one paragraph per string
    of [errors[id]], in the same order; the container is empty when
    [errors] is [undefined] or [errors[id]] is absent.  The component is a
    total function: it returns on every input. *)
Theorem ErrorMessages_paragraphs (errors : option Errors) (id : field) :
  let shown := div_children (ErrorMessages errors id) in
  (forall e msgs,
      errors = Some e -> Errors_get e id = Some msgs ->
      map p_text shown = msgs /\ List.length shown = List.length msgs /\
      forall n msg, nth_error msgs n = Some msg ->
                    exists p, nth_error shown n = Some p /\ p_text p = msg) /\
  (errors = None -> shown = []) /\
  (forall e, errors = Some e -> Errors_get e id = None -> shown = []).
Proof.
  cbv zeta. unfold ErrorMessages. cbn [div_children].
  split; [|split].
  - intros e msgs -> ->. split; [|split].
    + rewrite map_map. cbn [p_text]. apply map_id.
    + apply length_map.
    + intros n msg Hn. eexists. split.
      * rewrite nth_error_map, Hn. reflexivity.
      * reflexivity.
  - intros ->. reflexivity.
  - intros e -> ->. reflexivity.
Qed.

Lemma ErrorMessages_paragraphs_witness :
  map p_text
    (div_children
       (ErrorMessages
          (Some (mkErrors None (Some ["first"; "second"]) None)) amount))
  = ["first"; "second"].
Proof.
  destruct (ErrorMessages_paragraphs
              (Some (mkErrors None (Some ["first"; "second"]) None)) amount)
    as [H _].
  apply (H (mkErrors None (Some ["first"; "second"]) None)
           ["first"; "second"]); reflexivity.
Defined.

(** * More on validation *)

(** X1: [safeParse] succeeds exactly when [customerId] is a string (the
    empty string included), the coerced amount is a number greater than
    zero, and [status] is one of the two strings; the data are those
    values. *)
Theorem safeParse_success_iff (raw : RawInvoice) (data : InvoiceData) :
  FormSchema_safeParse raw = ParseSuccess data <->
  raw_customerId raw = Some (EntryString (data_customerId data)) /\
  data_amount data = Number (raw_amount raw) /\
  isNaN (Number (raw_amount raw)) = false /\
  leb (Number (raw_amount raw)) pos_zero = false /\
  raw_status raw = Some (EntryString (status_name (data_status data))).
Proof.
  split.
  - intros H. destruct (safeParse_success raw data H) as (Ha & Hn & Hl).
    repeat split; try assumption.
    + unfold FormSchema_safeParse in H.
      destruct (raw_customerId raw) as [[c|]|]; cbn [parse_customerId] in H;
        try discriminate.
      destruct (parse_amount _); [|discriminate].
      destruct (parse_status _); [|discriminate].
      injection H as <-. reflexivity.
    + unfold FormSchema_safeParse in H.
      destruct (parse_customerId _) as [c0|]; [|discriminate].
      destruct (parse_amount _) as [a0|]; [|discriminate].
      destruct (raw_status raw) as [[s|]|]; cbn [parse_status] in H;
        try discriminate.
      destruct (String.eqb s "pending") eqn:E1.
      { apply String.eqb_eq in E1. injection H as <-. rewrite E1.
        reflexivity. }
      destruct (String.eqb s "paid") eqn:E2; [|discriminate].
      apply String.eqb_eq in E2. injection H as <-. rewrite E2.
      reflexivity.
  - intros (Hc & Ha & Hn & Hl & Hs).
    unfold FormSchema_safeParse, parse_amount.
    rewrite Hc, Hs, Hn, Hl, <- Ha. cbn [parse_customerId parse_status].
    destruct data as [c a []]; reflexivity.
Qed.

(** X2: when [safeParse] fails, each key of the error mapping depends on
    its own field only: it is absent when the field is valid and holds
    exactly one message otherwise; and at least one key is present. *)
Theorem fieldErrors_keys (raw : RawInvoice) (issues : list issue) :
  FormSchema_safeParse raw = ParseError issues ->
  errors_customerId (fieldErrors issues)
  = match raw_customerId raw with
    | Some (EntryString _) => None
    | _ => Some ["Please select a customer."]
    end /\
  errors_amount (fieldErrors issues)
  = (if isNaN (Number (raw_amount raw))
     then Some ["Expected number, received nan"]
     else if leb (Number (raw_amount raw)) pos_zero
          then Some ["Please enter an amount greater than $0."]
          else None) /\
  (errors_status (fieldErrors issues) = None <->
   raw_status raw = Some (EntryString "pending") \/
   raw_status raw = Some (EntryString "paid")) /\
  (forall msgs, errors_status (fieldErrors issues) = Some msgs ->
                List.length msgs = 1%nat) /\
  fieldErrors issues <> mkErrors None None None.
Proof.
  intros E.
  assert (Hc := messages_of_safeParse raw issues customerId E).
  assert (Ha := messages_of_safeParse raw issues amount E).
  assert (Hs := messages_of_safeParse raw issues status E).
  assert (Kc : errors_customerId (fieldErrors issues)
               = match raw_customerId raw with
                 | Some (EntryString _) => None
                 | _ => Some ["Please select a customer."]
                 end).
  { unfold fieldErrors, field_errors; cbn [errors_customerId]. rewrite Hc.
    destruct (raw_customerId raw) as [[c|]|]; reflexivity. }
  assert (Ka : errors_amount (fieldErrors issues)
               = (if isNaN (Number (raw_amount raw))
                  then Some ["Expected number, received nan"]
                  else if leb (Number (raw_amount raw)) pos_zero
                       then Some ["Please enter an amount greater than $0."]
                       else None)).
  { unfold fieldErrors, field_errors; cbn [errors_amount]. rewrite Ha.
    unfold parse_amount. destruct (isNaN _); [reflexivity|].
    destruct (leb _ _); reflexivity. }
  assert (Ks : errors_status (fieldErrors issues)
               = match parse_status (raw_status raw) with
                 | inl _ => None
                 | inr l => Some (map issue_message l)
                 end /\
               forall l, parse_status (raw_status raw) = inr l ->
                         List.length l = 1%nat).
  { unfold fieldErrors, field_errors; cbn [errors_status]. rewrite Hs.
    destruct (raw_status raw) as [[s|]|]; cbn [parse_status];
      try (split; [reflexivity|intros l [= <-]; reflexivity]).
    destruct (String.eqb s "pending");
      [split; [reflexivity|discriminate]|].
    destruct (String.eqb s "paid");
      [split; [reflexivity|discriminate]|].
    split; [reflexivity|intros l [= <-]; reflexivity]. }
  destruct Ks as [Ks Ks1].
  split; [exact Kc|]. split; [exact Ka|]. split; [|split].
  - rewrite Ks. destruct (raw_status raw) as [[s|]|]; cbn [parse_status].
    + destruct (String.eqb_spec s "pending") as [->|N1];
        [split; auto|].
      destruct (String.eqb_spec s "paid") as [->|N2];
        [split; auto|].
      split; [discriminate|]. intros [[= H]|[= H]]; contradiction.
    + split; [discriminate|]. intros [H|H]; discriminate.
    + split; [discriminate|]. intros [H|H]; discriminate.
  - intros msgs. rewrite Ks.
    destruct (parse_status (raw_status raw)) as [st|l] eqn:P;
      [discriminate|]. intros [= <-]. rewrite length_map. apply Ks1.
    reflexivity.
  - intros Hnone.
    assert (H1 : errors_customerId (fieldErrors issues) = None)
      by (rewrite Hnone; reflexivity).
    assert (H2 : errors_amount (fieldErrors issues) = None)
      by (rewrite Hnone; reflexivity).
    assert (H3 : errors_status (fieldErrors issues) = None)
      by (rewrite Hnone; reflexivity).
    rewrite Kc in H1. rewrite Ka in H2. rewrite Ks in H3.
    unfold FormSchema_safeParse, parse_amount in E.
    destruct (raw_customerId raw) as [[c|]|]; try discriminate.
    destruct (isNaN (Number (raw_amount raw))); [discriminate|].
    destruct (leb (Number (raw_amount raw)) pos_zero); [discriminate|].
    cbn [parse_customerId] in E.
    destruct (parse_status (raw_status raw)); discriminate.
Qed.

Lemma fieldErrors_keys_witness :
  errors_customerId
    (fieldErrors [mkIssue customerId "Please select a customer.";
                  mkIssue amount "Please enter an amount greater than $0.";
                  mkIssue status "Please select an invoice status."])
  = Some ["Please select a customer."].
Proof.
  apply (fieldErrors_keys
           (mkRawInvoice None (Some (EntryString "0")) None)
           [mkIssue customerId "Please select a customer.";
            mkIssue amount "Please enter an amount greater than $0.";
            mkIssue status "Please select an invoice status."]).
  reflexivity.
Defined.

(** * White space and signs in an amount *)

Lemma list_ascii_of_string_app (s1 s2 : string) :
  list_ascii_of_string (s1 ++ s2)
  = (list_ascii_of_string s1 ++ list_ascii_of_string s2)%list.
Proof.
  induction s1 as [|c s1 IH]; [reflexivity|]. cbn. rewrite IH. reflexivity.
Qed.

Lemma trimStart_blank (l : list ascii) :
  forallb isStrWhiteSpaceChar l = true -> trimStart l = [].
Proof.
  induction l as [|c l IH]; [reflexivity|]. cbn [forallb trimStart].
  intros H. apply andb_prop in H. destruct H as [Hc Hl].
  rewrite Hc. exact (IH Hl).
Qed.

Lemma trimStart_app_blank (ws l : list ascii) :
  forallb isStrWhiteSpaceChar ws = true ->
  trimStart (ws ++ l) = trimStart l.
Proof.
  induction ws as [|c ws IH]; [reflexivity|]. cbn [forallb app trimStart].
  intros H. apply andb_prop in H. destruct H as [Hc Hl].
  rewrite Hc. exact (IH Hl).
Qed.

Lemma trimStart_nil_blank (l : list ascii) :
  trimStart l = [] -> forallb isStrWhiteSpaceChar l = true.
Proof.
  induction l as [|c l IH]; [reflexivity|]. cbn [forallb trimStart].
  destruct (isStrWhiteSpaceChar c); [exact IH|discriminate].
Qed.

(** Once the first character that is not white space is reached, what
    follows is kept. *)
Lemma trimStart_app_kept (l r : list ascii) :
  trimStart l <> [] -> trimStart (l ++ r) = (trimStart l ++ r)%list.
Proof.
  induction l as [|c l IH]; [intros H; contradiction|].
  cbn [app trimStart]. destruct (isStrWhiteSpaceChar c); [exact IH|].
  reflexivity.
Qed.

Lemma forallb_rev {A} (f : A -> bool) (l : list A) :
  forallb f (rev l) = forallb f l.
Proof.
  induction l as [|x l IH]; [reflexivity|]. cbn [rev forallb].
  rewrite forallb_app, IH. cbn [forallb]. rewrite andb_true_r.
  apply andb_comm.
Qed.

(** [trim] ignores white space on both sides. *)
Lemma trim_padded (ws l ws' : list ascii) :
  forallb isStrWhiteSpaceChar ws = true ->
  forallb isStrWhiteSpaceChar ws' = true ->
  trim (ws ++ l ++ ws') = trim l.
Proof.
  intros Hws Hws'. unfold trim. rewrite (trimStart_app_blank ws _ Hws).
  destruct (trimStart l) as [|c t] eqn:E.
  - rewrite (trimStart_blank (l ++ ws')); [reflexivity|].
    rewrite forallb_app, Hws', (trimStart_nil_blank l E). reflexivity.
  - rewrite trimStart_app_kept by (rewrite E; discriminate).
    rewrite E, rev_app_distr, trimStart_app_blank; [reflexivity|].
    rewrite forallb_rev. exact Hws'.
Qed.

(** X3: white space around an amount does not change the number that is
    validated: [Number] reads the same value with and without it, and
    validation gives the same result. *)
Theorem StringToNumber_padded (ws s ws' : string)
    (customer status : option FormDataEntryValue) :
  blank ws = true -> blank ws' = true ->
  StringToNumber (ws ++ s ++ ws') = StringToNumber s /\
  FormSchema_safeParse
    (mkRawInvoice customer (Some (EntryString (ws ++ s ++ ws'))) status)
  = FormSchema_safeParse
      (mkRawInvoice customer (Some (EntryString s)) status).
Proof.
  intros Hws Hws'.
  assert (E : StringToNumber (ws ++ s ++ ws') = StringToNumber s).
  { unfold blank, StringToNumber in *.
    rewrite !list_ascii_of_string_app, (trim_padded _ _ _ Hws Hws').
    reflexivity. }
  split; [exact E|].
  unfold FormSchema_safeParse, parse_amount.
  cbn [raw_customerId raw_amount raw_status Number]. rewrite E.
  reflexivity.
Qed.

Lemma StringToNumber_padded_witness :
  StringToNumber (" " ++ "10.50" ++ "  ") = StringToNumber "10.50" /\
  FormSchema_safeParse
    (mkRawInvoice (Some (EntryString "abc"))
                  (Some (EntryString (" " ++ "10.50" ++ "  ")))
                  (Some (EntryString "paid")))
  = FormSchema_safeParse
      (mkRawInvoice (Some (EntryString "abc")) (Some (EntryString "10.50"))
                    (Some (EntryString "paid"))).
Proof.
  apply (StringToNumber_padded " " "10.50" "  "); reflexivity.
Defined.

Lemma StringToNumber_blank (s : string) :
  blank s = true -> StringToNumber s = pos_zero.
Proof.
  unfold blank, StringToNumber, trim. intros H.
  rewrite (trimStart_blank _ H). reflexivity.
Qed.

(** X4: an amount that is missing from the form, empty or blank is
    coerced to zero: it is rejected with the greater-than-zero message,
    not as something that is not a number. *)
Theorem blank_amount_rejected (raw : RawInvoice) :
  raw_amount raw = None \/
  (exists s, raw_amount raw = Some (EntryString s) /\ blank s = true) ->
  exists issues,
    FormSchema_safeParse raw = ParseError issues /\
    errors_amount (fieldErrors issues)
    = Some ["Please enter an amount greater than $0."].
Proof.
  intros H.
  assert (Hz : Number (raw_amount raw) = pos_zero).
  { destruct H as [->|(s & -> & Hs)]; [reflexivity|].
    exact (StringToNumber_blank s Hs). }
  destruct (safeParse_invalid_amount raw) as (issues & msg & E & _).
  { right. rewrite Hz. reflexivity. }
  exists issues. split; [exact E|].
  rewrite (errors_amount_of_safeParse raw issues E), Hz. reflexivity.
Qed.

Lemma blank_amount_rejected_witness :
  exists issues,
    FormSchema_safeParse
      (mkRawInvoice (Some (EntryString "abc")) None
                    (Some (EntryString "paid")))
    = ParseError issues /\
    errors_amount (fieldErrors issues)
    = Some ["Please enter an amount greater than $0."].
Proof.
  apply (blank_amount_rejected
           (mkRawInvoice (Some (EntryString "abc")) None
                         (Some (EntryString "paid")))).
  left. reflexivity.
Defined.

(** The sign of a rounded result is the sign that was asked for. *)
Lemma binary_round_aux_signed (s : bool) (m e : Z) (l : location) :
  match binary_round_aux prec emax s m e l with
  | S754_zero s' | S754_finite s' _ _ | S754_infinity s' => s' = s
  | S754_nan => True
  end.
Proof.
  unfold binary_round_aux.
  destruct (shr_fexp prec emax m e l) as [mrs' e'].
  destruct (shr_fexp prec emax _ e' loc_Exact) as [mrs'' e''].
  destruct (shr_m mrs''); try reflexivity.
  destruct (e'' <=? emax - prec); reflexivity.
Qed.

(** A number with a minus sign is [NaN] or at most zero. *)
Lemma negative_not_accepted (x : number) :
  match x with
  | S754_zero s | S754_finite s _ _ | S754_infinity s => s = true
  | S754_nan => True
  end ->
  isNaN x = true \/ leb x pos_zero = true.
Proof. destruct x as [s|s| |s m e]; intros H; subst; auto. Qed.

Lemma of_decimal_negative (m : N) (e : Z) :
  match of_decimal true m e with
  | S754_zero s | S754_finite s _ _ | S754_infinity s => s = true
  | S754_nan => True
  end.
Proof.
  destruct m as [|p]; [reflexivity|]. unfold of_decimal.
  assert (Hn : forall z, 0 < z ->
             match binary_normalize prec emax (cond_Zopp true z) 0 true with
             | S754_zero s | S754_finite s _ _ | S754_infinity s => s = true
             | S754_nan => True
             end).
  { intros z Hz. cbn [cond_Zopp].
    destruct (- z) as [|q|q] eqn:E; [reflexivity|lia|].
    unfold binary_normalize, binary_round.
    destruct (shl_align _ _ _) as [mz ez].
    apply binary_round_aux_signed. }
  destruct e as [|k|k].
  - apply Hn. lia.
  - apply Hn. pose proof (Z.pow_pos_nonneg 10 (Zpos k)). lia.
  - unfold of_ratio, SFdiv.
    destruct (SFdiv_core_binary _ _ _ _ _ _) as [[mz ez] lz].
    apply (binary_round_aux_signed (xorb true false)).
Qed.

Lemma unsigned_decimal_negative (l : list ascii) :
  isNaN (unsigned_decimal true l) = true \/
  leb (unsigned_decimal true l) pos_zero = true.
Proof.
  apply negative_not_accepted. unfold unsigned_decimal.
  destruct (list_eq_dec _ _ _); [reflexivity|].
  destruct (span_digits 10 l) as [ip r1].
  destruct (match r1 with "."%char :: r => _ | _ => _ end) as [fp r2].
  destruct (ip ++ fp)%list; [exact I|].
  destruct (exponent_part r2); [apply of_decimal_negative | exact I].
Qed.

Lemma trimStart_snoc (l : list ascii) (c : ascii) :
  isStrWhiteSpaceChar c = false ->
  exists t, trimStart (l ++ [c]) = (t ++ [c])%list.
Proof.
  intros Hc. induction l as [|d l [t IH]]; cbn [app trimStart].
  - rewrite Hc. exists []. reflexivity.
  - destruct (isStrWhiteSpaceChar d); [exists t; exact IH|].
    exists (d :: l). reflexivity.
Qed.

(** What [trim] leaves of a string that starts, after white space, with a
    character that is not white space. *)
Lemma trim_first (ws r : list ascii) (c : ascii) :
  forallb isStrWhiteSpaceChar ws = true ->
  isStrWhiteSpaceChar c = false ->
  exists t, trim (ws ++ c :: r) = c :: t.
Proof.
  intros Hws Hc. unfold trim. rewrite (trimStart_app_blank ws _ Hws).
  cbn [trimStart]. rewrite Hc. cbn [rev].
  destruct (rev r) as [|d r'] eqn:E.
  - cbn [app trimStart]. rewrite Hc. exists []. reflexivity.
  - assert (Hlast : exists t, trimStart ((d :: r') ++ [c]) = (t ++ [c])%list).
    { destruct (isStrWhiteSpaceChar d) eqn:Hd.
      - cbn [app trimStart]. rewrite Hd. apply trimStart_snoc. exact Hc.
      - exists (d :: r'). cbn [app trimStart]. rewrite Hd. reflexivity. }
    destruct Hlast as [t Ht]. rewrite Ht, rev_app_distr.
    exists (rev t). reflexivity.
Qed.

(** X5: an amount written with a minus sign never passes validation,
    whatever follows the sign: the value is [NaN] or at most zero and a
    message is filed under [amount]. *)
Theorem minus_sign_rejected (raw : RawInvoice) (ws rest : string) :
  blank ws = true ->
  raw_amount raw = Some (EntryString (ws ++ String "-" rest)) ->
  (isNaN (Number (raw_amount raw)) = true \/
   leb (Number (raw_amount raw)) pos_zero = true) /\
  exists issues msg,
    FormSchema_safeParse raw = ParseError issues /\
    errors_amount (fieldErrors issues) = Some [msg].
Proof.
  intros Hws Hraw.
  assert (Hbad : isNaN (Number (raw_amount raw)) = true \/
                 leb (Number (raw_amount raw)) pos_zero = true).
  { rewrite Hraw. cbn [Number]. unfold StringToNumber.
    rewrite list_ascii_of_string_app. cbn [list_ascii_of_string].
    destruct (trim_first (list_ascii_of_string ws)
                (list_ascii_of_string rest) "-" Hws eq_refl) as [t ->].
    assert (Hd : numeric_literal ("-"%char :: t) = unsigned_decimal true t).
    { destruct t as [|c1 t]; reflexivity. }
    rewrite Hd. apply unsigned_decimal_negative. }
  split; [exact Hbad|]. exact (safeParse_invalid_amount raw Hbad).
Qed.

Lemma minus_sign_rejected_witness :
  (isNaN (Number (Some (EntryString (" " ++ String "-" "12.5")))) = true \/
   leb (Number (Some (EntryString (" " ++ String "-" "12.5")))) pos_zero
   = true) /\
  exists issues msg,
    FormSchema_safeParse
      (mkRawInvoice (Some (EntryString "abc"))
                    (Some (EntryString (" " ++ String "-" "12.5")))
                    (Some (EntryString "paid")))
    = ParseError issues /\
    errors_amount (fieldErrors issues) = Some [msg].
Proof.
  apply (minus_sign_rejected
           (mkRawInvoice (Some (EntryString "abc"))
                         (Some (EntryString (" " ++ String "-" "12.5")))
                         (Some (EntryString "paid")))
           " " "12.5"); reflexivity.
Defined.

(** * More on the mutations *)

(** X6: a database error never reaches the caller of a mutation:
    [createInvoice] and [updateInvoice] end in the redirect or return a
    state, [deleteInvoice] always returns a state; and one call sends at
    most one statement. *)
Theorem mutations_contain_errors (prevState : State) (formData : FormData)
    (id : string) (w : World) :
  let create := createInvoice prevState formData in
  let update := updateInvoice id prevState formData in
  let delete := deleteInvoice id in
  (fst (create w) = Thrown (NEXT_REDIRECT invoices_path) \/
   exists state, fst (create w) = Returned state) /\
  (fst (update w) = Thrown (NEXT_REDIRECT invoices_path) \/
   exists state, fst (update w) = Returned state) /\
  (exists state, fst (delete w) = Returned state) /\
  (List.length (statements_of (emitted create w)) <= 1)%nat /\
  (List.length (statements_of (emitted update w)) <= 1)%nat /\
  List.length (statements_of (emitted delete w)) = 1%nat.
Proof.
  cbv zeta.
  rewrite emitted_createInvoice, emitted_updateInvoice, emitted_deleteInvoice,
    createInvoice_run, updateInvoice_run, deleteInvoice_run.
  unfold CreateInvoice_safeParse, UpdateInvoice_safeParse.
  destruct (FormSchema_safeParse (raw_of_form formData)) as [data|issues];
    cbv zeta;
    repeat match goal with
           | |- context [db_rejects ?d ?q] => destruct (db_rejects d q)
           end;
    cbn [fst statements_of filter is_sql List.length];
    repeat split; try lia; try (left; reflexivity);
    try (right; eexists; reflexivity); try (eexists; reflexivity).
Qed.

(** X7: a mutation that returns a failure leaves the database as it was:
    [createInvoice] and [updateInvoice] whenever they return a state,
    [deleteInvoice] whenever the message is not ["Deleted Invoice."]. *)
Theorem failed_mutation_keeps_database (prevState : State)
    (formData : FormData) (id : string) (w : World) :
  (forall state, fst (createInvoice prevState formData w) = Returned state ->
                 database (snd (createInvoice prevState formData w))
                 = database w) /\
  (forall state, fst (updateInvoice id prevState formData w) = Returned state ->
                 database (snd (updateInvoice id prevState formData w))
                 = database w) /\
  (forall state, fst (deleteInvoice id w) = Returned state ->
                 state_message state <> Some "Deleted Invoice." ->
                 database (snd (deleteInvoice id w)) = database w).
Proof.
  rewrite createInvoice_run, updateInvoice_run, deleteInvoice_run.
  unfold CreateInvoice_safeParse, UpdateInvoice_safeParse.
  split; [|split].
  - destruct (FormSchema_safeParse _); [|reflexivity]. cbv zeta.
    destruct (db_rejects _ _); [reflexivity|discriminate].
  - destruct (FormSchema_safeParse _); [|reflexivity]. cbv zeta.
    destruct (db_rejects _ _); [reflexivity|discriminate].
  - destruct (db_rejects _ _); [reflexivity|].
    intros state [= <-] H. exfalso. apply H. reflexivity.
Qed.

Lemma failed_mutation_keeps_database_witness :
  database (snd (createInvoice initialState (sample_form "10.50")
                   offline_world))
  = database offline_world.
Proof.
  destruct (failed_mutation_keeps_database initialState (sample_form "10.50")
              missing_id offline_world) as [H _].
  apply (H (persistence_failure "Database Error: Failed to Create Invoice.")).
  reflexivity.
Defined.

(** X8: when [createInvoice] ends in the redirect, the table has gained
    exactly one row, after the rows it had: the row carries the form's
    customer and status (which is ["pending"] or ["paid"]), the date of the
    day, and the form's amount times 100, a number greater than zero. *)
Theorem createInvoice_row (prevState : State) (formData : FormData)
    (w : World) :
  fst (createInvoice prevState formData w)
  = Thrown (NEXT_REDIRECT invoices_path) ->
  exists row,
    db_invoices (database (snd (createInvoice prevState formData w)))
    = (db_invoices (database w) ++ [row])%list /\
    FormData_get "customerId" formData
    = Some (EntryString (invoice_customer_id row)) /\
    FormData_get "status" formData
    = Some (EntryString (invoice_status row)) /\
    (invoice_status row = "pending" \/ invoice_status row = "paid") /\
    invoice_date row = today w /\
    invoice_amount row = mul (Number (FormData_get "amount" formData)) hundred /\
    ltb pos_zero (invoice_amount row) = true.
Proof.
  rewrite createInvoice_run. unfold CreateInvoice_safeParse.
  destruct (FormSchema_safeParse (raw_of_form formData)) as [data|issues] eqn:E;
    [|discriminate].
  cbv zeta. destruct (db_rejects _ _); [discriminate|]. intros _.
  apply safeParse_success_fields in E.
  destruct E as (Hc & Ha & Hn & Hl & Hs). cbn [raw_of_form raw_customerId
    raw_amount raw_status] in *.
  eexists. cbn [snd after database with_invoices db_invoices apply_statement
    insert_of].
  split; [reflexivity|].
  cbn [invoice_customer_id invoice_status invoice_date invoice_amount].
  split; [exact Hc|]. split; [exact Hs|].
  split; [destruct (data_status data); auto|].
  split; [reflexivity|]. rewrite Ha. split; [reflexivity|].
  apply mul_hundred_positive; [apply well_formed_Number|exact Hn|exact Hl].
Qed.

Lemma createInvoice_row_witness :
  exists row,
    db_invoices (database (snd (createInvoice initialState
                                  (sample_form "10.50") sample_world)))
    = (db_invoices (database sample_world) ++ [row])%list /\
    FormData_get "customerId" (sample_form "10.50")
    = Some (EntryString (invoice_customer_id row)) /\
    FormData_get "status" (sample_form "10.50")
    = Some (EntryString (invoice_status row)) /\
    (invoice_status row = "pending" \/ invoice_status row = "paid") /\
    invoice_date row = today sample_world /\
    invoice_amount row
    = mul (Number (FormData_get "amount" (sample_form "10.50"))) hundred /\
    ltb pos_zero (invoice_amount row) = true.
Proof.
  apply (createInvoice_row initialState (sample_form "10.50") sample_world).
  reflexivity.
Defined.

Lemma map_no_match (id : string) (f : Invoice -> Invoice)
                   (rows : list Invoice) :
  find (fun r => String.eqb (invoice_id r) id) rows = None ->
  map (fun r => if String.eqb (invoice_id r) id then f r else r) rows = rows.
Proof.
  induction rows as [|r rows IH]; [reflexivity|]. cbn [find map].
  destruct (String.eqb (invoice_id r) id); [discriminate|].
  intros H. rewrite (IH H). reflexivity.
Qed.

(** X9: when [updateInvoice] ends in the redirect, the table has the same
    rows in the same order with their identifiers and dates; a row with
    another identifier is untouched, and a row with the identifier carries
    the form's customer and status and the form's amount times 100. *)
Theorem updateInvoice_rows (id : string) (prevState : State)
    (formData : FormData) (w : World) :
  fst (updateInvoice id prevState formData w)
  = Thrown (NEXT_REDIRECT invoices_path) ->
  let before := db_invoices (database w) in
  let after :=
    db_invoices (database (snd (updateInvoice id prevState formData w))) in
  map invoice_id after = map invoice_id before /\
  map invoice_date after = map invoice_date before /\
  (forall n r, nth_error before n = Some r -> invoice_id r <> id ->
               nth_error after n = Some r) /\
  (forall r, In r after -> invoice_id r = id ->
             FormData_get "customerId" formData
             = Some (EntryString (invoice_customer_id r)) /\
             FormData_get "status" formData
             = Some (EntryString (invoice_status r)) /\
             invoice_amount r
             = mul (Number (FormData_get "amount" formData)) hundred).
Proof.
  rewrite updateInvoice_run. unfold UpdateInvoice_safeParse.
  destruct (FormSchema_safeParse (raw_of_form formData)) as [data|issues] eqn:E;
    [|discriminate].
  cbv zeta. destruct (db_rejects _ _); [discriminate|]. intros _.
  apply safeParse_success_fields in E.
  destruct E as (Hc & Ha & Hn & Hl & Hs). cbn [raw_of_form raw_customerId
    raw_amount raw_status] in *.
  cbn [snd after database with_invoices db_invoices apply_statement
    update_of].
  set (rows := db_invoices (database w)).
  split; [|split; [|split]].
  - rewrite map_map. apply map_ext. intros r.
    destruct (String.eqb (invoice_id r) id); reflexivity.
  - rewrite map_map. apply map_ext. intros r.
    destruct (String.eqb (invoice_id r) id); reflexivity.
  - intros n r Hn' Hid. rewrite nth_error_map, Hn'. cbn [option_map].
    apply String.eqb_neq in Hid. rewrite Hid. reflexivity.
  - intros r Hin Hid. apply in_map_iff in Hin. destruct Hin as (r0 & Hr & _).
    destruct (String.eqb_spec (invoice_id r0) id) as [Heq|Hne].
    + subst r. cbn [invoice_customer_id invoice_status invoice_amount].
      rewrite Ha. auto.
    + subst r. contradiction.
Qed.

Lemma updateInvoice_rows_witness :
  map invoice_date
    (db_invoices
       (database (snd (updateInvoice (invoice_id sample_invoice) initialState
                         (sample_form "20") world_with_invoice))))
  = map invoice_date (db_invoices (database world_with_invoice)).
Proof.
  apply (updateInvoice_rows (invoice_id sample_invoice) initialState
           (sample_form "20") world_with_invoice).
  reflexivity.
Defined.

(** X10: [updateInvoice] with an identifier that no row matches and a
    valid form still ends in the redirect when the database executes the
    statement: both hooks fire and the table is as it was. *)
Theorem update_missing_invoice (id : string) (prevState : State)
    (formData : FormData) (data : InvoiceData) (w : World) :
  matching_row (database w) id = None ->
  FormSchema_safeParse (raw_of_form formData) = ParseSuccess data ->
  db_rejects (database w) (update_of id data) = false ->
  fst (updateInvoice id prevState formData w)
  = Thrown (NEXT_REDIRECT invoices_path) /\
  hooks_of (emitted (updateInvoice id prevState formData) w)
  = [RevalidatePath invoices_path; Redirect invoices_path] /\
  db_invoices (database (snd (updateInvoice id prevState formData w)))
  = db_invoices (database w).
Proof.
  intros Hrow E Hdb.
  rewrite emitted_updateInvoice, updateInvoice_run.
  unfold UpdateInvoice_safeParse. rewrite E. cbv zeta. rewrite Hdb.
  split; [reflexivity|]. split; [reflexivity|].
  cbn [snd after database with_invoices db_invoices apply_statement
    update_of].
  apply map_no_match. exact Hrow.
Qed.

Lemma update_missing_invoice_witness :
  fst (updateInvoice missing_id initialState (sample_form "10.50")
         world_with_invoice)
  = Thrown (NEXT_REDIRECT invoices_path) /\
  hooks_of (emitted (updateInvoice missing_id initialState
                       (sample_form "10.50")) world_with_invoice)
  = [RevalidatePath invoices_path; Redirect invoices_path] /\
  db_invoices (database (snd (updateInvoice missing_id initialState
                                (sample_form "10.50") world_with_invoice)))
  = db_invoices (database world_with_invoice).
Proof.
  apply (update_missing_invoice missing_id initialState (sample_form "10.50")
           (mkInvoiceData "abc" (StringToNumber "10.50") pending)
           world_with_invoice); reflexivity.
Defined.

(** X11: when [deleteInvoice] answers ["Deleted Invoice."], no row with
    the identifier is left, every other row is kept, and no row is new. *)
Theorem deleteInvoice_rows (id : string) (w : World) :
  fst (deleteInvoice id w) = Returned (mkState None (Some "Deleted Invoice.")) ->
  let w' := snd (deleteInvoice id w) in
  matching_row (database w') id = None /\
  (forall r, In r (db_invoices (database w')) <->
             In r (db_invoices (database w)) /\ invoice_id r <> id).
Proof.
  rewrite deleteInvoice_run.
  destruct (db_rejects (database w) (DELETE_invoice id)) eqn:Hdb;
    [discriminate|]. intros _. cbv zeta.
  cbn [snd after database with_invoices db_invoices apply_statement].
  unfold matching_row, with_invoices. cbn [db_invoices].
  generalize (db_invoices (database w)). intros rows.
  split.
  - induction rows as [|r rows IH]; [reflexivity|]. cbn [filter].
    destruct (String.eqb (invoice_id r) id) eqn:Hr; cbn [negb]; [exact IH|].
    cbn [find]. rewrite Hr. exact IH.
  - intros r. rewrite filter_In, negb_true_iff, String.eqb_neq. reflexivity.
Qed.

Lemma deleteInvoice_rows_witness :
  matching_row
    (database (snd (deleteInvoice (invoice_id sample_invoice)
                      world_with_invoice)))
    (invoice_id sample_invoice) = None.
Proof.
  apply (deleteInvoice_rows (invoice_id sample_invoice) world_with_invoice).
  reflexivity.
Defined.

(** * More on the login *)

(** [authorize] on credentials that parse, the lookup failing. *)
Lemma authorize_lookup_failed (isEmail : string -> bool)
    (bcrypt_compare : string -> string -> bool)
    (credentials : Credentials) (email password : string) (w : World) :
  parse_credentials isEmail credentials = Some (email, password) ->
  db_rejects (database w) (SELECT_user email) = true ->
  authorize isEmail bcrypt_compare credentials w
  = (Thrown (Error "Failed to fetch user."),
     logged w [Sql (SELECT_user email); ConsoleError]).
Proof.
  unfold authorize. intros -> Hdb. unfold bind at 1.
  rewrite getUser_run, Hdb. reflexivity.
Qed.

Lemma parse_credentials_some (isEmail : string -> bool)
    (credentials : Credentials) (email password : string) :
  parse_credentials isEmail credentials = Some (email, password) <->
  cred_email credentials = Some email /\
  cred_password credentials = Some password /\
  isEmail email = true /\ (6 <= String.length password)%nat.
Proof.
  unfold parse_credentials. split.
  - destruct (cred_email credentials) as [e|]; [|discriminate].
    destruct (cred_password credentials) as [p|]; [|discriminate].
    destruct (isEmail e) eqn:He; [|discriminate].
    destruct (6 <=? String.length p)%nat eqn:Hp; [|discriminate].
    intros [= <- <-]. apply Nat.leb_le in Hp. auto.
  - intros (-> & -> & -> & Hp). apply Nat.leb_le in Hp. rewrite Hp.
    reflexivity.
Qed.

(** X12: [authorize] returns a user exactly when the credentials are two
    strings, the email is a valid address, the password has at least 6
    characters, the lookup is answered, the first row of that email is the
    user, and [bcrypt.compare] accepts the password against the stored
    hash.  The user returned carries the submitted email. *)
Theorem authorize_accepts (isEmail : string -> bool)
    (bcrypt_compare : string -> string -> bool)
    (credentials : Credentials) (w : World) (u : User) :
  (fst (authorize isEmail bcrypt_compare credentials w) = Returned (Some u) <->
   exists email password,
     cred_email credentials = Some email /\
     cred_password credentials = Some password /\
     isEmail email = true /\ (6 <= String.length password)%nat /\
     db_rejects (database w) (SELECT_user email) = false /\
     matching_user (database w) email = Some u /\
     bcrypt_compare password (user_password u) = true) /\
  (fst (authorize isEmail bcrypt_compare credentials w) = Returned (Some u) ->
   cred_email credentials = Some (user_email u) /\
   In u (db_users (database w))).
Proof.
  assert (Hiff :
    fst (authorize isEmail bcrypt_compare credentials w) = Returned (Some u) <->
    exists email password,
      cred_email credentials = Some email /\
      cred_password credentials = Some password /\
      isEmail email = true /\ (6 <= String.length password)%nat /\
      db_rejects (database w) (SELECT_user email) = false /\
      matching_user (database w) email = Some u /\
      bcrypt_compare password (user_password u) = true).
  { split.
    - intros H.
      destruct (parse_credentials isEmail credentials) as [[email password]|]
        eqn:Hp.
      + exists email, password.
        destruct (proj1 (parse_credentials_some _ _ _ _) Hp)
          as (He & Hpw & Hv & Hl).
        destruct (db_rejects (database w) (SELECT_user email)) eqn:Hdb.
        * rewrite (authorize_lookup_failed _ _ _ _ _ _ Hp Hdb) in H.
          discriminate.
        * rewrite (authorize_parsed _ _ _ _ _ _ Hp Hdb) in H.
          destruct (matching_user (database w) email) as [u'|];
            [|discriminate].
          destruct (bcrypt_compare password (user_password u')) eqn:Hc;
            [|discriminate].
          injection H as ->. auto 10.
      + rewrite (authorize_unparsed _ _ _ _ Hp) in H. discriminate.
    - intros (email & password & He & Hpw & Hv & Hl & Hdb & Hu & Hc).
      assert (Hp : parse_credentials isEmail credentials
                   = Some (email, password))
        by (apply parse_credentials_some; auto).
      rewrite (authorize_parsed _ _ _ _ _ _ Hp Hdb), Hu, Hc. reflexivity. }
  split; [exact Hiff|].
  intros H. apply Hiff in H.
  destruct H as (email & password & He & _ & _ & _ & _ & Hu & _).
  unfold matching_user in Hu. apply find_some in Hu.
  destruct Hu as [Hin Heq]. apply String.eqb_eq in Heq.
  rewrite Heq. auto.
Qed.

(** X13: [authorize] never changes the database; when the lookup fails it
    throws the error of [getUser], ["Failed to fetch user."], after one
    statement and one [console.error], and not the database's own error. *)
Theorem authorize_lookup_error (isEmail : string -> bool)
    (bcrypt_compare : string -> string -> bool)
    (credentials : Credentials) (w : World) :
  let run := authorize isEmail bcrypt_compare credentials in
  database (snd (run w)) = database w /\
  fst (run w) <> Thrown DatabaseError /\
  (forall email password,
      parse_credentials isEmail credentials = Some (email, password) ->
      db_rejects (database w) (SELECT_user email) = true ->
      fst (run w) = Thrown (Error "Failed to fetch user.") /\
      emitted run w = [Sql (SELECT_user email); ConsoleError]).
Proof.
  cbv zeta.
  destruct (parse_credentials isEmail credentials) as [[email password]|]
    eqn:Hp.
  - destruct (db_rejects (database w) (SELECT_user email)) eqn:Hdb.
    + rewrite (authorize_lookup_failed _ _ _ _ _ _ Hp Hdb).
      split; [reflexivity|]. split; [discriminate|].
      intros e p [= <- <-] _. split; [reflexivity|].
      apply emitted_of_trace.
      rewrite (authorize_lookup_failed _ _ _ _ _ _ Hp Hdb). reflexivity.
    + rewrite (authorize_parsed _ _ _ _ _ _ Hp Hdb).
      destruct (matching_user (database w) email) as [u|].
      * destruct (bcrypt_compare password (user_password u));
          (split; [reflexivity|]); (split; [discriminate|]);
          intros e p [= <- <-] H; rewrite Hdb in H; discriminate.
      * split; [reflexivity|]. split; [discriminate|].
        intros e p [= <- <-] H; rewrite Hdb in H; discriminate.
  - rewrite (authorize_unparsed _ _ _ _ Hp).
    split; [reflexivity|]. split; [discriminate|]. discriminate.
Qed.

Lemma authorize_lookup_error_witness :
  let isEmail := fun s => String.eqb s "user@nextmail.com" in
  let compare := fun p h : string => true in
  let run := authorize isEmail compare
               (mkCredentials (Some "user@nextmail.com") (Some "123456")) in
  fst (run offline_world) = Thrown (Error "Failed to fetch user.") /\
  emitted run offline_world
  = [Sql (SELECT_user "user@nextmail.com"); ConsoleError].
Proof.
  cbv zeta.
  apply (authorize_lookup_error (fun s => String.eqb s "user@nextmail.com")
           (fun p h => true)
           (mkCredentials (Some "user@nextmail.com") (Some "123456"))
           offline_world)
    with (password := "123456"); reflexivity.
Defined.

(** X14: [getUser] answers with the first row of [users] that has the
    email, which is [undefined] exactly when no row has it; when the
    database fails it logs and throws ["Failed to fetch user."]. *)
Theorem getUser_lookup (email : string) (w : World) :
  (db_rejects (database w) (SELECT_user email) = false ->
   exists found,
     fst (getUser email w) = Returned found /\
     found = hd_error (filter (fun u => String.eqb (user_email u) email)
                              (db_users (database w))) /\
     (forall u, found = Some u ->
                In u (db_users (database w)) /\ user_email u = email) /\
     (found = None <->
      forall u, In u (db_users (database w)) -> user_email u <> email)) /\
  (db_rejects (database w) (SELECT_user email) = true ->
   fst (getUser email w) = Thrown (Error "Failed to fetch user.") /\
   emitted (getUser email) w = [Sql (SELECT_user email); ConsoleError]).
Proof.
  split; intros Hdb.
  - rewrite getUser_run, Hdb. eexists. split; [reflexivity|].
    unfold matching_user. split; [symmetry; apply hd_error_filter|]. split.
    + intros u Hu. apply find_some in Hu. destruct Hu as [Hin Heq].
      apply String.eqb_eq in Heq. auto.
    + split.
      * intros Hnone u Hin Heq.
        pose proof (find_none _ _ Hnone u Hin) as Hf. cbv beta in Hf.
        apply String.eqb_neq in Hf. contradiction.
      * intros Hall.
        destruct (find _ (db_users (database w))) as [u|] eqn:Hf;
          [|reflexivity].
        apply find_some in Hf. destruct Hf as [Hin Heq].
        apply String.eqb_eq in Heq. exfalso. exact (Hall u Hin Heq).
  - split.
    + rewrite getUser_run, Hdb. reflexivity.
    + apply emitted_of_trace. rewrite getUser_run, Hdb. reflexivity.
Qed.

Lemma getUser_lookup_witness :
  fst (getUser "user@nextmail.com" offline_world)
  = Thrown (Error "Failed to fetch user.") /\
  emitted (getUser "user@nextmail.com") offline_world
  = [Sql (SELECT_user "user@nextmail.com"); ConsoleError].
Proof.
  apply (getUser_lookup "user@nextmail.com" offline_world). reflexivity.
Defined.

(** X15: [authenticate] returns nothing but [undefined] and its two
    messages; it returns [undefined] exactly when [signIn] returned, and
    it never lets an [AuthError] through. *)
Theorem authenticate_range (signIn : string -> FormData -> Async unit)
    (prevState : option string) (formData : FormData) (w : World) :
  let result := fst (authenticate signIn prevState formData w) in
  (forall r, result = Returned r ->
             r = None \/ r = Some "Invalid credentials." \/
             r = Some "Something went wrong.") /\
  (result = Returned None <->
   exists u, fst (signIn "credentials" formData w) = Returned u) /\
  (forall type, result <> Thrown (AuthError type)).
Proof.
  cbv zeta. rewrite authenticate_run.
  destruct (signIn "credentials" formData w) as [[u|e] w']; cbn [fst].
  - split; [intros r [= <-]; auto|]. split; [|discriminate].
    split; [eexists; reflexivity | reflexivity].
  - destruct e; cbn [fst];
      try (split; [discriminate|];
           split; [split; [discriminate|intros [u H]; discriminate]
                  |discriminate]).
    split.
    + intros r [= <-].
      destruct (String.eqb type "CredentialsSignin"); auto.
    + split; [|discriminate].
      split; [|intros [u H]; discriminate].
      destruct (String.eqb type "CredentialsSignin"); discriminate.
Qed.

(** * Route protection *)

Lemma prefix_dashboard :
  String.prefix "/dashboard" "/dashboard" = true.
Proof. reflexivity. Qed.

(** X16: a request without a logged-in user is never redirected: it is
    refused exactly on the paths that start with [/dashboard] and allowed
    everywhere else.  A session without a [user] counts as not logged
    in. *)
Theorem authorized_anonymous (auth : option Session) (nextUrl : URL) :
  isLoggedIn auth = false ->
  authorized auth nextUrl
  = Allowed (negb (String.prefix "/dashboard" (url_pathname nextUrl))) /\
  isLoggedIn (Some (mkSession None)) = false /\
  isLoggedIn None = false.
Proof.
  intros H. unfold authorized. rewrite H.
  destruct (String.prefix "/dashboard" (url_pathname nextUrl)); auto.
Qed.

Lemma authorized_anonymous_witness :
  authorized None (mkURL "https://example.com" "/dashboard/invoices")
  = Allowed (negb (String.prefix "/dashboard" "/dashboard/invoices")) /\
  isLoggedIn (Some (mkSession None)) = false /\
  isLoggedIn None = false.
Proof.
  apply (authorized_anonymous None
           (mkURL "https://example.com" "/dashboard/invoices")).
  reflexivity.
Defined.

(** X17: a logged-in user is allowed on the paths that start with
    [/dashboard] and is redirected from every other path to [/dashboard]
    on the same origin; the target of the redirect is itself allowed, so
    the redirect is followed once. *)
Theorem authorized_logged_in (auth : option Session) (nextUrl : URL) :
  isLoggedIn auth = true ->
  (String.prefix "/dashboard" (url_pathname nextUrl) = true ->
   authorized auth nextUrl = Allowed true) /\
  (String.prefix "/dashboard" (url_pathname nextUrl) = false ->
   exists location,
     authorized auth nextUrl = Response_redirect location /\
     url_origin location = url_origin nextUrl /\
     url_pathname location = "/dashboard" /\
     authorized auth location = Allowed true).
Proof.
  intros H. unfold authorized. rewrite H. split; intros Hp; rewrite Hp.
  - reflexivity.
  - eexists. split; [reflexivity|]. cbn [new_URL url_origin url_pathname].
    rewrite prefix_dashboard. auto.
Qed.

Lemma authorized_logged_in_witness :
  exists location,
    authorized (Some (mkSession (Some (mkUser "user@nextmail.com" "hash"))))
               (mkURL "https://example.com" "/login")
    = Response_redirect location /\
    url_origin location = "https://example.com" /\
    url_pathname location = "/dashboard" /\
    authorized (Some (mkSession (Some (mkUser "user@nextmail.com" "hash"))))
               location
    = Allowed true.
Proof.
  apply (authorized_logged_in
           (Some (mkSession (Some (mkUser "user@nextmail.com" "hash"))))
           (mkURL "https://example.com" "/login")); reflexivity.
Defined.

(** * Showing the errors *)

(** X18: what the create form shows under a field after a submission
    that returned: one paragraph under [amount] when the amount is invalid
    and none when it is valid; and nothing under any field after a
    database failure, whose state has no [errors] key. *)
Theorem create_form_messages (prevState : State) (formData : FormData)
    (w : World) (state : State) (id : field) :
  fst (createInvoice prevState formData w) = Returned state ->
  let shown f := div_children (ErrorMessages (state_errors state) f) in
  let value := Number (FormData_get "amount" formData) in
  (isNaN value = true \/ leb value pos_zero = true ->
   List.length (shown amount) = 1%nat) /\
  (isNaN value = false -> leb value pos_zero = false ->
   shown amount = []) /\
  (state_message state = Some "Database Error: Failed to Create Invoice." ->
   shown id = []).
Proof.
  rewrite createInvoice_run. unfold CreateInvoice_safeParse.
  destruct (FormSchema_safeParse (raw_of_form formData)) as [data|issues] eqn:E.
  - cbv zeta. destruct (db_rejects _ _); [|discriminate].
    intros [= <-]. cbv zeta. cbn [state_errors persistence_failure].
    destruct (safeParse_success _ _ E) as (_ & Hn & Hl).
    cbn [raw_of_form raw_amount] in Hn, Hl.
    split; [|split]; try reflexivity.
    intros [H|H]; congruence.
  - intros [= <-]. cbv zeta.
    cbn [state_errors state_message validation_failure].
    pose proof (errors_amount_of_safeParse _ _ E) as Ha.
    cbn [raw_of_form raw_amount] in Ha.
    unfold ErrorMessages. cbn [Errors_get div_children]. rewrite Ha.
    split; [|split].
    + intros [H|H].
      * rewrite H. reflexivity.
      * rewrite H. destruct (isNaN _); reflexivity.
    + intros Hn Hl. rewrite Hn, Hl. reflexivity.
    + discriminate.
Qed.

Lemma create_form_messages_witness :
  List.length
    (div_children
       (ErrorMessages
          (state_errors
             (validation_failure
                [mkIssue amount "Please enter an amount greater than $0."]
                "Missing Fields. Failed to Create Invoice."))
          amount)) = 1%nat.
Proof.
  destruct (create_form_messages initialState (sample_form "0") sample_world
              (validation_failure
                 [mkIssue amount "Please enter an amount greater than $0."]
                 "Missing Fields. Failed to Create Invoice.")
              amount eq_refl) as [H _].
  apply H. right. reflexivity.
Defined.

(** X19: after a login attempt that returned, the form shows an alert
    exactly when [signIn] threw an [AuthError]: the alert is then the icon
    followed by the message, ["Invalid credentials."] for the type
    [CredentialsSignin] and ["Something went wrong."] for any other type;
    when [signIn] returned, the alert region is empty. *)
Theorem login_form_alert (signIn : string -> FormData -> Async unit)
    (prevState : option string) (formData : FormData) (w : World)
    (errorMessage : option string) :
  fst (authenticate signIn prevState formData w) = Returned errorMessage ->
  (forall type,
      fst (signIn "credentials" formData w) = Thrown (AuthError type) ->
      LoginForm_alert errorMessage
      = [ExclamationCircleIcon;
         AlertText (if String.eqb type "CredentialsSignin"
                    then "Invalid credentials."
                    else "Something went wrong.")]) /\
  (forall u, fst (signIn "credentials" formData w) = Returned u ->
             LoginForm_alert errorMessage = []) /\
  (LoginForm_alert errorMessage <> [] <->
   exists type,
     fst (signIn "credentials" formData w) = Thrown (AuthError type)) /\
  (forall child, In child (LoginForm_alert errorMessage) ->
                 child = ExclamationCircleIcon \/
                 child = AlertText "Invalid credentials." \/
                 child = AlertText "Something went wrong.").
Proof.
  rewrite authenticate_run.
  destruct (signIn "credentials" formData w) as [[u|e] w']; cbn [fst].
  - intros [= <-]. cbn [LoginForm_alert].
    split; [discriminate|]. split; [reflexivity|]. split.
    + split; [intros H; contradiction|intros [t H]; discriminate].
    + intros child [].
  - destruct e; try discriminate. intros [= <-].
    split.
    { intros t [= <-].
      destruct (String.eqb type "CredentialsSignin"); reflexivity. }
    split; [discriminate|].
    destruct (String.eqb type "CredentialsSignin"); cbn.
    + split; [split; [eexists; reflexivity|discriminate]|].
      intros child [<-|[<-|[]]]; auto.
    + split; [split; [eexists; reflexivity|discriminate]|].
      intros child [<-|[<-|[]]]; auto.
Qed.

Lemma login_form_alert_witness :
  LoginForm_alert (Some "Something went wrong.")
  = [ExclamationCircleIcon; AlertText "Something went wrong."].
Proof.
  destruct (login_form_alert
              (fun _ _ => throw (AuthError "CallbackRouteError"))
              None [] sample_world (Some "Something went wrong.") eq_refl)
    as [H _].
  exact (H "CallbackRouteError" eq_refl).
Defined.

(** * Whole amounts are exact *)

(** [q] followed by [j] zero bits. *)
Lemma iter_xO_value (j : nat) (q : positive) :
  Zpos (Nat.iter j xO q) = Zpos q * 2 ^ Z.of_nat j.
Proof.
  induction j as [|j IH]; [cbn; lia|].
  rewrite Nat2Z.inj_succ, Z.pow_succ_r by lia.
  rewrite Nat.iter_succ, Pos2Z.inj_xO, IH. ring.
Qed.

Lemma iter_xO_digits (j : nat) (q : positive) :
  Zpos (digits2_pos (Nat.iter j xO q))
  = Zpos (digits2_pos q) + Z.of_nat j.
Proof.
  induction j as [|j IH]; [cbn; lia|].
  rewrite Nat.iter_succ. cbn [digits2_pos]. rewrite Pos2Z.inj_succ, IH. lia.
Qed.

Lemma iter_pos_nat {A} (f : A -> A) (p : positive) (x : A) :
  iter_pos f p x = Nat.iter (Pos.to_nat p) f x.
Proof.
  revert x. induction p as [p IH|p IH|]; intros x; cbn [iter_pos].
  - rewrite !IH, Pos2Nat.inj_xI, <- Nat.iter_add, <- Nat.iter_succ_r.
    f_equal. lia.
  - rewrite !IH, Pos2Nat.inj_xO, <- Nat.iter_add. f_equal. lia.
  - reflexivity.
Qed.

Lemma pos_iter_nat {A} (f : A -> A) (p : positive) (x : A) :
  Pos.iter f x p = Nat.iter (Pos.to_nat p) f x.
Proof.
  rewrite Pos2Nat.inj_iter. reflexivity.
Qed.

(** Shifting out zero bits loses nothing. *)
Lemma shr_exact (n j : nat) (q : positive) :
  Nat.iter n shr_1 (Build_shr_record (Zpos (Nat.iter (n + j) xO q)) false false)
  = Build_shr_record (Zpos (Nat.iter j xO q)) false false.
Proof.
  induction n as [|n IH]; [reflexivity|].
  rewrite Nat.iter_succ_r. cbn [Nat.add]. rewrite Nat.iter_succ.
  cbn [shr_1 orb]. exact IH.
Qed.

Lemma shr_fexp_exact_split (N : positive) (n t : nat) :
  Z.of_nat t = 53 - Zpos (digits2_pos N) ->
  shr_fexp prec emax (Zpos (Nat.iter (n + t) xO N)) (- Z.of_nat (n + t))
           loc_Exact
  = (Build_shr_record (Zpos (Nat.iter t xO N)) false false,
     Zpos (digits2_pos N) - 53).
Proof.
  intros Ht. unfold shr_fexp. cbn [Zdigits2]. rewrite iter_xO_digits.
  replace (fexp prec emax (Zpos (digits2_pos N) + Z.of_nat (n + t)
                           + - Z.of_nat (n + t)))
    with (Zpos (digits2_pos N) - 53).
  2:{ unfold fexp, emin, prec, emax. lia. }
  cbn [shr_record_of_loc]. destruct n as [|n].
  - replace (Zpos (digits2_pos N) - 53 - - Z.of_nat (0 + t)) with 0 by lia.
    cbn [shr Nat.add]. f_equal. lia.
  - replace (Zpos (digits2_pos N) - 53 - - Z.of_nat (S n + t))
      with (Zpos (Pos.of_succ_nat n)) by lia.
    cbn [shr]. rewrite iter_pos_nat, SuccNat2Pos.id_succ, shr_exact.
    f_equal. lia.
Qed.

(** A mantissa of at most 53 significant bits followed by enough zero
    bits is brought to 53 bits without loss. *)
Lemma shr_fexp_exact (N : positive) (j : nat) :
  Zpos (digits2_pos N) <= 53 ->
  53 - Zpos (digits2_pos N) <= Z.of_nat j ->
  shr_fexp prec emax (Zpos (Nat.iter j xO N)) (- Z.of_nat j) loc_Exact
  = (Build_shr_record
       (Zpos (Nat.iter (Z.to_nat (53 - Zpos (digits2_pos N))) xO N))
       false false,
     Zpos (digits2_pos N) - 53).
Proof.
  intros HD Hj. set (t := Z.to_nat (53 - Zpos (digits2_pos N))).
  assert (Ht : Z.of_nat t = 53 - Zpos (digits2_pos N)) by (unfold t; lia).
  assert (Ej : j = ((j - t) + t)%nat) by lia.
  rewrite Ej. apply shr_fexp_exact_split. exact Ht.
Qed.

Lemma round_exact (s : bool) (N : positive) (j : nat) :
  Zpos (digits2_pos N) <= 53 ->
  53 - Zpos (digits2_pos N) <= Z.of_nat j ->
  binary_round_aux prec emax s (Zpos (Nat.iter j xO N)) (- Z.of_nat j)
                   loc_Exact
  = S754_finite s (Nat.iter (Z.to_nat (53 - Zpos (digits2_pos N))) xO N)
                (Zpos (digits2_pos N) - 53).
Proof.
  intros HD Hj. unfold binary_round_aux.
  rewrite (shr_fexp_exact N j HD Hj).
  cbn [shr_m loc_of_shr_record round_nearest_even].
  set (t := Z.to_nat (53 - Zpos (digits2_pos N))).
  replace (Zpos (digits2_pos N) - 53) with (- Z.of_nat t) by (unfold t; lia).
  rewrite (shr_fexp_exact N t HD) by (unfold t; lia).
  cbn [shr_m]. fold t.
  replace (Zpos (digits2_pos N) - 53 <=? emax - prec) with true.
  2:{ symmetry. apply Z.leb_le. unfold emax, prec. lia. }
  f_equal. unfold t. lia.
Qed.

(** The integer a mantissa with [t] trailing zero bits stands for. *)
Lemma integer_value_shifted (s : bool) (N : positive) (t : nat) :
  integer_value (S754_finite s (Nat.iter t xO N) (- Z.of_nat t))
  = Some (cond_Zopp s (Zpos N)).
Proof.
  unfold integer_value. destruct t as [|t].
  - cbn [Z.of_nat Z.opp Nat.iter]. f_equal. f_equal.
    change (Nat.iter 0 xO N) with N. lia.
  - assert (E : - Z.of_nat (S t) = Zneg (Pos.of_succ_nat t)) by lia.
    rewrite E.
    assert (Hk : Zpos (Pos.of_succ_nat t) = Z.of_nat (S t)) by lia.
    rewrite Hk, iter_xO_value, Z.land_ones by lia.
    rewrite Z.mod_mul by lia. cbn [Z.eqb].
    rewrite Z.shiftr_div_pow2 by lia.
    rewrite Z.div_mul by lia. reflexivity.
Qed.

Lemma mul_iter_xO_l (a : nat) (p q : positive) :
  (Nat.iter a xO p * q)%positive = Nat.iter a xO (p * q)%positive.
Proof.
  induction a as [|a IH]; [reflexivity|].
  rewrite !Nat.iter_succ. cbn [Pos.mul]. rewrite IH. reflexivity.
Qed.

Lemma mul_iter_xO_r (b : nat) (p q : positive) :
  (p * Nat.iter b xO q)%positive = Nat.iter b xO (p * q)%positive.
Proof.
  induction b as [|b IH]; [reflexivity|].
  rewrite !Nat.iter_succ, Pos.mul_xO_r, IH. reflexivity.
Qed.

Lemma two_power_53 : 2 ^ 53 = 9007199254740992.
Proof. reflexivity. Qed.

Lemma Zdigits2_le (p q : positive) :
  Zpos p <= Zpos q -> Zpos (digits2_pos p) <= Zpos (digits2_pos q).
Proof.
  intros H. pose proof (digits2_pos_le p q ltac:(lia)). lia.
Qed.

Lemma digits_at_most_53 (p : positive) :
  Zpos p < 2 ^ 53 -> Zpos (digits2_pos p) <= 53.
Proof.
  rewrite two_power_53. intros H.
  assert (Hle : Zpos p <= Zpos 9007199254740991) by lia.
  exact (Zdigits2_le p 9007199254740991 Hle).
Qed.

(** An integer below [2^53] is a number without rounding. *)
Lemma of_Z_exact (N : positive) :
  Zpos N < 2 ^ 53 ->
  of_Z (Zpos N)
  = S754_finite false
      (Nat.iter (Z.to_nat (53 - Zpos (digits2_pos N))) xO N)
      (- Z.of_nat (Z.to_nat (53 - Zpos (digits2_pos N)))).
Proof.
  intros HN. pose proof (digits_at_most_53 N HN) as HD.
  clear HN.
  set (t := Z.to_nat (53 - Zpos (digits2_pos N))).
  assert (Ht : Z.of_nat t = 53 - Zpos (digits2_pos N)) by (unfold t; lia).
  unfold of_Z, binary_normalize, binary_round.
  replace (fexp prec emax (Zpos (digits2_pos N) + 0))
    with (Zpos (digits2_pos N) - 53)
    by (unfold fexp, emin, prec, emax; lia).
  assert (Hal : shl_align N 0 (Zpos (digits2_pos N) - 53)
                = (Nat.iter t xO N, - Z.of_nat t)).
  { unfold shl_align.
    destruct (Zpos (digits2_pos N) - 53 - 0) as [|d|d] eqn:E; try lia.
    - assert (t = 0%nat) by lia. subst t. rewrite H. reflexivity.
    - rewrite pos_iter_nat. f_equal; [f_equal|]; lia. }
  rewrite Hal, (round_exact false N t HD) by lia.
  fold t. f_equal. lia.
Qed.

(** The product of an integer with 100 is exact as long as it stays
    below [2^53]. *)
Lemma mul_hundred_exact (N : positive) :
  100 * Zpos N < 2 ^ 53 ->
  integer_value (mul (of_Z (Zpos N)) hundred) = Some (100 * Zpos N).
Proof.
  intros H100.
  assert (HN : Zpos N < 2 ^ 53)
    by (rewrite two_power_53 in *; lia).
  assert (H100' : Zpos (N * 100) < 2 ^ 53)
    by (rewrite two_power_53 in *; lia).
  pose proof (digits_at_most_53 (N * 100) H100') as HD'.
  pose proof (Zdigits2_le N (N * 100) ltac:(lia)) as Hmon.
  rewrite (of_Z_exact N HN), hundred_eq. clear HN H100 H100'.
  set (t := Z.to_nat (53 - Zpos (digits2_pos N))).
  change 7036874417766400%positive with (Nat.iter 46 xO 100%positive).
  unfold mul, SFmul. cbn [xorb].
  rewrite mul_iter_xO_l, mul_iter_xO_r, <- Nat.iter_add.
  replace (- Z.of_nat t + -46) with (- Z.of_nat (t + 46)) by lia.
  rewrite (round_exact false (N * 100) (t + 46) HD') by (unfold t; lia).
  set (t' := Z.to_nat (53 - Zpos (digits2_pos (N * 100)))).
  replace (Zpos (digits2_pos (N * 100)) - 53) with (- Z.of_nat t')
    by (unfold t'; lia).
  rewrite integer_value_shifted. cbn [cond_Zopp]. f_equal. lia.
Qed.

(** A decimal digit is neither white space, nor a sign, nor a radix
    letter, nor the first letter of [Infinity]. *)
Lemma decimal_digit_char (c : ascii) (d : N) :
  digit_value 10 c = Some d ->
  isStrWhiteSpaceChar c = false /\ Ascii.eqb c "-" = false /\
  Ascii.eqb c "+" = false /\ radix_of_prefix c = None /\
  Ascii.eqb c "I" = false.
Proof.
  destruct c as [[] [] [] [] [] [] [] []]; vm_compute; intros H;
    try discriminate; auto.
Qed.

Lemma span_digits_all (l : list ascii) (ds : list N) :
  span_digits 10 l = (ds, []) ->
  Forall (fun c => exists d, digit_value 10 c = Some d) l.
Proof.
  revert ds. induction l as [|c l IH]; intros ds H; [constructor|].
  cbn [span_digits] in H. destruct (digit_value 10 c) as [d|] eqn:Hc;
    [|discriminate].
  destruct (span_digits 10 l) as [ds' r] eqn:Hs. injection H as _ ->.
  constructor; [exists d; exact Hc | exact (IH ds' eq_refl)].
Qed.

Lemma trimStart_digits (l : list ascii) :
  Forall (fun c => exists d, digit_value 10 c = Some d) l ->
  trimStart l = l.
Proof.
  intros H. destruct H as [|c l [d Hc] _]; [reflexivity|].
  cbn [trimStart]. destruct (decimal_digit_char c d Hc) as [-> _].
  reflexivity.
Qed.

Lemma trim_digits (l : list ascii) :
  Forall (fun c => exists d, digit_value 10 c = Some d) l -> trim l = l.
Proof.
  intros H. unfold trim. rewrite (trimStart_digits l H).
  rewrite trimStart_digits by (apply Forall_rev; exact H).
  apply rev_involutive.
Qed.

(** A string of digits is read as the integer it spells. *)
Lemma StringToNumber_whole (s : string) (n : positive) :
  whole_amount s = Some (Npos n) -> StringToNumber s = of_Z (Zpos n).
Proof.
  unfold whole_amount, StringToNumber.
  destruct (span_digits 10 (list_ascii_of_string s)) as [ds r] eqn:Hs.
  destruct ds as [|d0 ds]; [discriminate|].
  destruct r; [|discriminate]. intros [= Hv].
  pose proof (span_digits_all _ _ Hs) as Hall.
  rewrite (trim_digits _ Hall).
  set (l := list_ascii_of_string s) in *.
  assert (Hdec : unsigned_decimal false l = of_Z (Zpos n)).
  { unfold unsigned_decimal.
    destruct (list_eq_dec ascii_dec l (list_ascii_of_string "Infinity"))
      as [Heq|_].
    - exfalso. rewrite Heq in Hall. inversion Hall as [|c l' [d Hc] _].
      destruct (decimal_digit_char _ _ Hc) as (_ & _ & _ & _ & HI).
      discriminate.
    - rewrite Hs. cbn [app]. rewrite app_nil_r. cbn [exponent_part].
      rewrite Hv. cbn [List.length Z.of_nat Z.sub Z.opp Z.add].
      unfold of_decimal, of_Z. cbn [cond_Zopp].
      replace (Zpos n * 10 ^ 0) with (Zpos n) by (cbn; lia).
      reflexivity. }
  assert (Hsign : decimal l = unsigned_decimal false l).
  { destruct Hall as [|c l' [d Hc] _]; [reflexivity|]. cbn [decimal].
    destruct (decimal_digit_char c d Hc) as (_ & -> & -> & _).
    reflexivity. }
  destruct l as [|c0 [|c1 l']] eqn:El.
  - discriminate.
  - cbn [numeric_literal]. rewrite Hsign. exact Hdec.
  - cbn [numeric_literal].
    inversion Hall as [|? ? _ Htl]. inversion Htl as [|? ? [d1 Hc1] _].
    destruct (decimal_digit_char c1 d1 Hc1) as (_ & _ & _ & -> & _).
    destruct (Ascii.eqb c0 "0"); rewrite Hsign; exact Hdec.
Qed.

(** The amount [createInvoice] binds is the validated amount times 100. *)
Lemma created_amount (prevState : State) (formData : FormData) (w : World)
    (ev : event) (a : number) (data : InvoiceData) :
  FormSchema_safeParse (raw_of_form formData) = ParseSuccess data ->
  In ev (emitted (createInvoice prevState formData) w) ->
  bound_amount ev = Some a ->
  a = mul (data_amount data) hundred.
Proof.
  intros E Hin Ha. rewrite emitted_createInvoice in Hin.
  unfold CreateInvoice_safeParse in Hin. rewrite E in Hin. cbv zeta in Hin.
  destruct (db_rejects _ _); cbn [In] in Hin;
    repeat (destruct Hin as [<-|Hin];
            [cbn [bound_amount insert_of] in Ha; congruence|]);
    contradiction.
Qed.

(** X20: an amount written with decimal digits only, greater than zero
    and below [2^53 / 100], is a number greater than zero for validation,
    and [createInvoice] binds exactly 100 times the integer it spells. *)
Theorem whole_amount_exact (prevState : State) (formData : FormData)
    (w : World) (s : string) (n : positive) :
  FormData_get "amount" formData = Some (EntryString s) ->
  whole_amount s = Some (Npos n) ->
  100 * Zpos n < 2 ^ 53 ->
  isNaN (StringToNumber s) = false /\
  leb (StringToNumber s) pos_zero = false /\
  integer_value (mul (StringToNumber s) hundred) = Some (100 * Zpos n) /\
  forall ev a,
    In ev (emitted (createInvoice prevState formData) w) ->
    bound_amount ev = Some a ->
    integer_value a = Some (100 * Zpos n).
Proof.
  intros Hget Hwhole Hbound.
  assert (Hint : integer_value (mul (StringToNumber s) hundred)
                 = Some (100 * Zpos n)).
  { rewrite (StringToNumber_whole s n Hwhole).
    exact (mul_hundred_exact n Hbound). }
  assert (Hpos : isNaN (StringToNumber s) = false /\
                 leb (StringToNumber s) pos_zero = false).
  { rewrite (StringToNumber_whole s n Hwhole), of_Z_exact.
    - split; reflexivity.
    - rewrite two_power_53 in *. lia. }
  destruct Hpos as [Hn Hl]. repeat split; try assumption.
  intros ev a Hin Ha.
  destruct (FormSchema_safeParse (raw_of_form formData)) as [data|issues]
    eqn:E.
  - rewrite (created_amount prevState formData w ev a data E Hin Ha).
    destruct (safeParse_success _ _ E) as (Hd & _).
    cbn [raw_of_form raw_amount] in Hd. rewrite Hd, Hget. exact Hint.
  - rewrite emitted_createInvoice in Hin.
    unfold CreateInvoice_safeParse in Hin. rewrite E in Hin. destruct Hin.
Qed.

Lemma whole_amount_exact_witness :
  isNaN (StringToNumber "250") = false /\
  leb (StringToNumber "250") pos_zero = false /\
  integer_value (mul (StringToNumber "250") hundred) = Some (100 * 250) /\
  forall ev a,
    In ev (emitted (createInvoice initialState (sample_form "250"))
                   sample_world) ->
    bound_amount ev = Some a ->
    integer_value a = Some (100 * 250).
Proof.
  apply (whole_amount_exact initialState (sample_form "250") sample_world
           "250" 250); [reflexivity|reflexivity|].
  rewrite two_power_53. lia.
Defined.
